(** * slack-invite-request: a model of [server.js]

    The server is a short Express application: a start-up script that reads
    its configuration from the environment, and seven routes.  The model
    follows the file top to bottom:

    - [Js]       the JavaScript data the handlers touch (JSON-like values,
                 property reads and writes that may raise a [TypeError]);
    - [Lodash], [Dotty], [Async] the library calls the handlers make;
    - [Server]   the start-up script and the route handlers, written in a
                 small state/trace/exception monad;
    - the properties of the notification pipeline proved about them. *)

From Stdlib Require Import String Ascii List ZArith Bool Arith Lia.
From Stdlib Require Import DecimalString.
Import ListNotations.
Open Scope string_scope.
Open Scope list_scope.

Set Warnings "-register-all".

(* ================================================================= *)
(** ** JavaScript values *)

Module Js.

(** A value as [JSON.parse], [qs] or [yaml.safeLoad] build it.  An object
    is the list of its own enumerable properties in enumeration order; an
    array carries its elements and, besides them, the named properties a
    program may have put on it. *)
Inductive value : Type :=
| VUndef
| VNull
| VBool (b : bool)
| VNum (z : Z)
| VStr (s : string)
| VObj (props : list (string * value))
| VArr (elems : list value) (named : list (string * value)).

Definition object := list (string * value).

(** The only exception the handlers can raise themselves. *)
Inductive exn : Type := TypeError.

Inductive result (A : Type) : Type :=
| Ok (a : A)
| Throw (e : exn).
Arguments Ok {A} a.
Arguments Throw {A} e.

(** ToBoolean. *)
Definition truthy (v : value) : bool :=
  match v with
  | VUndef | VNull => false
  | VBool b => b
  | VNum z => negb (z =? 0)%Z
  | VStr s => negb (s =? EmptyString)
  | VObj _ | VArr _ _ => true
  end.

Definition nullish (v : value) : bool :=
  match v with
  | VUndef | VNull => true
  | _ => false
  end.

(** Own-property lookup and update of an object's property list.  A new
    key goes last, an existing one keeps its place.  (JavaScript lists the
    names that are array indices ahead of the others; the names the
    handlers and the start-up script write themselves, [user], [value],
    [title], [short], [main], [signin], [apply], are not of that kind, and
    for a source object that has such names [obj_set] gives every property
    its value but not that place.) *)
Fixpoint lookup (k : string) (o : object) : option value :=
  match o with
  | [] => None
  | (k', v) :: rest => if k' =? k then Some v else lookup k rest
  end.

Fixpoint obj_set (o : object) (k : string) (v : value) : object :=
  match o with
  | [] => [(k, v)]
  | (k', v') :: rest =>
      if k' =? k then (k, v) :: rest else (k', v') :: obj_set rest k v
  end.

Definition or_undef (o : option value) : value :=
  match o with
  | Some v => v
  | None => VUndef
  end.

(** A property name that is an array index: a canonical decimal numeral. *)
Definition string_of_index (n : nat) : string :=
  NilEmpty.string_of_uint (Nat.to_uint n).

Definition index_of_string (k : string) : option nat :=
  match NilEmpty.uint_of_string k with
  | Some u =>
      let n := Nat.of_uint u in
      if string_of_index n =? k then Some n else None
  | None => None
  end.

(** [v[k]] for a [v] that is neither [undefined] nor [null].  Inherited
    properties are limited to [length]; the names [server.js] reads
    ([kind], [displayName], [emails], [0], [value], [url], [image],
    [comments], [apply], [form], [fullName], [email], [user]) are never
    found on a prototype. *)
Definition prop (v : value) (k : string) : value :=
  match v with
  | VObj o => or_undef (lookup k o)
  | VArr es named =>
      match index_of_string k with
      | Some i => nth i es VUndef
      | None =>
          if k =? "length" then VNum (Z.of_nat (List.length es))
          else or_undef (lookup k named)
      end
  | VStr s =>
      match index_of_string k with
      | Some i =>
          match String.get i s with
          | Some c => VStr (String c EmptyString)
          | None => VUndef
          end
      | None =>
          if k =? "length" then VNum (Z.of_nat (String.length s))
          else VUndef
      end
  | _ => VUndef
  end.

(** [v.k]: reading a property of [undefined] or [null] throws. *)
Definition get_member (v : value) (k : string) : result value :=
  if nullish v then Throw TypeError else Ok (prop v k).

(** Writing an array element: in range it replaces, out of range the
    array grows and the gap reads [undefined]. *)
Fixpoint arr_set (es : list value) (i : nat) (x : value) : list value :=
  match i, es with
  | O, [] => [x]
  | O, _ :: rest => x :: rest
  | S j, [] => VUndef :: arr_set [] j x
  | S j, e :: rest => e :: arr_set rest j x
  end.

(** [v.k = x] under ['use strict']: objects and arrays take the property,
    everything else throws. *)
Definition set_member (v : value) (k : string) (x : value) : result value :=
  match v with
  | VObj o => Ok (VObj (obj_set o k x))
  | VArr es named =>
      match index_of_string k with
      | Some i => Ok (VArr (arr_set es i x) named)
      | None => Ok (VArr es (obj_set named k x))
      end
  | _ => Throw TypeError
  end.

Definition bind_result {A B} (r : result A) (f : A -> result B) : result B :=
  match r with
  | Ok a => f a
  | Throw e => Throw e
  end.

(** [v.k1.k2. ... .kn = x], the statement form of lines 162 and 163: the
    path is read from the left, the last member is written, and the
    enclosing objects are rebuilt around it (the handlers' objects form a
    tree, so this is the in-place update). *)
Fixpoint set_path (v : value) (path : list string) (x : value)
  : result value :=
  match path with
  | [] => Ok x
  | [k] => set_member v k x
  | k :: rest =>
      bind_result (get_member v k) (fun sub =>
      bind_result (set_path sub rest x) (fun sub' =>
      set_member v k sub'))
  end.

(** ToString, as string concatenation applies it.  A [VNum] is an
    integer and is printed digit by digit, as JavaScript prints the
    integers below 1e21; the exponent form it uses from there on, and
    fractions, are not modelled. *)
Definition string_of_Z (z : Z) : string :=
  match z with
  | Z0 => "0"
  | Zpos p => string_of_index (Pos.to_nat p)
  | Zneg p => "-" ++ string_of_index (Pos.to_nat p)
  end.

Fixpoint to_string (v : value) : string :=
  match v with
  | VUndef => "undefined"
  | VNull => "null"
  | VBool true => "true"
  | VBool false => "false"
  | VNum z => string_of_Z z
  | VStr s => s
  | VObj _ => "[object Object]"
  | VArr es _ =>
      String.concat ","
        (map (fun e => if nullish e then EmptyString else to_string e) es)
  end.

End Js.
Import Js.

(** The double quote, for the string literals of the source that hold one. *)
Definition dquote : string := String (ascii_of_nat 34) EmptyString.

(* ================================================================= *)
(** ** lodash (3.x), as [server.js] calls it *)

Module Lodash.

(** The own enumerable properties a source contributes to [_.assign]. *)
Fixpoint indexed (i : nat) (es : list value) : object :=
  match es with
  | [] => []
  | e :: rest => (string_of_index i, e) :: indexed (S i) rest
  end.

Definition chars (s : string) : list value :=
  map (fun c => VStr (String c EmptyString)) (list_ascii_of_string s).

Definition own_props (v : value) : object :=
  match v with
  | VObj o => o
  | VArr es named => indexed 0 es ++ named
  | VStr s => indexed 0 (chars s)
  | _ => []
  end.

(** [_.assign(target, source)]: later values win, new keys go last. *)
Definition assign (target : object) (source : value) : object :=
  fold_left (fun o kv => obj_set o (fst kv) (snd kv)) (own_props source) target.

(** [_.omit(object, key)]. *)
Definition omit (o : object) (key : string) : object :=
  filter (fun kv => negb (fst kv =? key)) o.

(** [_.pairs(object)]: one two-element array [[key, value]] per property. *)
Definition pairs (o : object) : list (list value) :=
  map (fun kv => [VStr (fst kv); snd kv]) o.

(** [_.map(array, callback)], the callback receiving element and index. *)
Fixpoint map_from (i : nat) (f : value -> nat -> value) (xs : list value)
  : list value :=
  match xs with
  | [] => []
  | x :: rest => f x i :: map_from (S i) f rest
  end.

Definition map_array (xs : list value) (f : value -> nat -> value)
  : list value :=
  map_from 0 f xs.

(** [_.map(object, callback)]: the callback applied to each property value
    in enumeration order. *)
Definition map_object {A B : Type} (o : list (string * A)) (f : A -> B)
  : list B :=
  map (fun kv => f (snd kv)) o.

(** [_.zipObject(props, values)]: [result[props[i]] = values[i]]. *)
Fixpoint zip_into (acc : object) (props : list string) (values : list value)
  : object :=
  match props with
  | [] => acc
  | p :: ps => zip_into (obj_set acc p (hd VUndef values)) ps (tl values)
  end.

Definition zipObject (props : list string) (values : list value) : object :=
  zip_into [] props values.

(** [_.flow(f1, f2, f3, f4)]: left-to-right composition.  Called from
    [_.map], the first function also receives index and collection, which
    the source's first function ignores. *)
Definition flow {A B C D E : Type}
  (f1 : A -> B) (f2 : B -> C) (f3 : C -> D) (f4 : D -> E) : A -> E :=
  fun x => f4 (f3 (f2 (f1 x))).

End Lodash.

(* ================================================================= *)
(** ** dotty *)

Module Dotty.

(** [dotty.get(object, path)] with the path already split at its dots:
    walks own properties while the current value is an object, and answers
    [undefined] otherwise; it never throws. *)
Fixpoint get (object : value) (path : list string) : value :=
  match path with
  | [] => VUndef
  | key :: rest =>
      match object with
      | VObj _ | VArr _ _ =>
          match rest with
          | [] => prop object key
          | _ :: _ => get (prop object key) rest
          end
      | _ => VUndef
      end
  end.

End Dotty.

(* ================================================================= *)
(** ** Observable effects *)

(** What the process does that something outside a handler can see, in the
    order it happens. *)
Inductive event : Type :=
| ConsoleLog (format : string) (args : list value)
| ConsoleError (what : value)
| ConsoleErrorStack (e : exn)
| ProcessExit (code : nat)
| Listen (port : value)
| SendStatus (code : nat)
| Redirect (location : string)
| Render (view : string) (context : value)
| Send (status : nat) (body : string)
| Mv (src dest : string)
| MvReport (job : nat) (err : value)
| SlackPost (url : value) (payload : value).

(** The events that are the HTTP response. *)
Definition is_response (e : event) : bool :=
  match e with
  | SendStatus _ | Redirect _ | Render _ _ | Send _ _ => true
  | _ => false
  end.

Definition is_slack (e : event) : bool :=
  match e with
  | SlackPost _ _ => true
  | _ => false
  end.

Definition is_mv (e : event) : bool :=
  match e with
  | Mv _ _ => true
  | _ => false
  end.

Definition responses (t : list event) : list event := filter is_response t.

(* ================================================================= *)
(** ** async *)

Module Async.

(** A rename job, [async.apply(mv, tmpPath, dest)]. *)
Definition job : Type := (string * string)%type.

Definition start (j : job) : event := Mv (fst j) (snd j).

(** The environment's part: the order in which the started moves call
    back, each with the [err] argument it passes (a falsy one on success). *)
Definition report : Type := (nat * value)%type.

(** [async.parallel(tasks, callback)] once every task has been started.
    [outstanding] counts the tasks that have not called back; [called] is
    the [once] latch on [callback].  As the library documents it: if any
    task passes an error to its callback, the main callback is called
    immediately with that error; otherwise it is called, with no error,
    when the last outstanding task has reported. *)
Fixpoint settle (outstanding : nat) (called : bool) (reports : list report)
  (callback : value -> list event) : list event :=
  match reports with
  | [] => []
  | (i, err) :: rest =>
      MvReport i err ::
      (if truthy err then
         (if called then [] else callback err)
           ++ settle (outstanding - 1) true rest callback
       else if called then settle (outstanding - 1) true rest callback
       else if (outstanding - 1 =? 0)%nat then
         callback VNull ++ settle 0 true rest callback
       else settle (outstanding - 1) false rest callback)
  end.

(** [async.parallel]: the tasks are started in order; with no task the
    callback runs straight away. *)
Definition parallel (tasks : list job) (reports : list report)
  (callback : value -> list event) : list event :=
  map start tasks ++
  match tasks with
  | [] => callback VNull
  | _ :: _ => settle (List.length tasks) false reports callback
  end.

End Async.

(* ================================================================= *)
(** ** The server *)

(** What a handler can change: the session of the client being served
    ([req.session], an object that express-session reads from the session
    store and writes back to it) and the process-wide [strings] loaded from
    [strings.yml]. *)
Record state : Type := mkState {
  session : object;
  strings : value
}.

(** A handler: state in, trace and state out, and either a return or an
    exception. *)
Definition M (A : Type) : Type := state -> list event * state * result A.

Definition ret {A} (a : A) : M A := fun st => ([], st, Ok a).

Definition bind {A B} (m : M A) (k : A -> M B) : M B :=
  fun st =>
    match m st with
    | (t, st', Ok a) =>
        match k a st' with
        | (t', st'', r) => (t ++ t', st'', r)
        end
    | (t, st', Throw e) => (t, st', Throw e)
    end.

Definition emit (e : event) : M unit := fun st => ([e], st, Ok tt).
Definition emit_all (t : list event) : M unit := fun st => (t, st, Ok tt).
Definition get_state : M state := fun st => ([], st, Ok st).
Definition put_state (st : state) : M unit := fun _ => ([], st, Ok tt).
Definition lift {A} (r : result A) : M A := fun st => ([], st, r).

Declare Scope handler_scope.
Delimit Scope handler_scope with handler.
Notation "x <- m ;; k" := (bind m (fun x => k))
  (at level 61, m at next level, right associativity) : handler_scope.
Notation "m ;; k" := (bind m (fun _ => k))
  (at level 61, right associativity) : handler_scope.
Open Scope handler_scope.

Definition trace_of {A} (r : list event * state * result A) : list event :=
  fst (fst r).
Definition state_of {A} (r : list event * state * result A) : state :=
  snd (fst r).
Definition result_of {A} (r : list event * state * result A) : result A :=
  snd r.

(** An upload as multer describes it, with the two properties the
    submission handler adds.  [originalname] is the name the file has on
    the visitor's machine; [name] is the name multer stores it under, which
    multer makes up for each upload; [path] is where it is stored. *)
Record upload : Type := mkUpload {
  fieldname : string;
  originalname : string;
  name : string;
  path : string;
  dest : option string;
  uri : option string
}.

(** [_.assign(fileObj, {dest: d, uri: u})]. *)
Definition assign_upload (fileObj : upload) (d u : string) : upload :=
  {| fieldname := fieldname fileObj;
     originalname := originalname fileObj;
     name := name fileObj;
     path := path fileObj;
     dest := Some d;
     uri := Some u |}.

(** A string property that may not have been set, inside a concatenation. *)
Definition opt_to_string (o : option string) : string :=
  match o with
  | Some s => s
  | None => "undefined"
  end.

(** The request: what the middleware stack of lines 107-123 has put on
    [req] (the body parsers always leave an object in [req.body]; multer
    keys [req.files] by field name). *)
Record request : Type := mkRequest {
  protocol : string;
  host : option string;
  body : object;
  files : list (string * upload)
}.

(** [req] as [dotty.get] sees it. *)
Definition req_value (st : state) (req : request) : value :=
  VObj [("session", VObj (session st)); ("body", VObj (body req))].

(** Line 120: [req.originUri = req.protocol + '://' + req.get('host')]. *)
Definition originUri (req : request) : string :=
  protocol req ++ "://" ++ opt_to_string (host req).

(** The configuration the start-up script leaves in module variables. *)
Record config : Type := mkConfig {
  gaToken : value;
  slackUrl : value;
  clientId : value;
  channel : value;
  botName : value
}.

Definition environment : Type := string -> option string.

(** [process.env.NAME]. *)
Definition getenv (env : environment) (k : string) : value :=
  match env k with
  | Some s => VStr s
  | None => VUndef
  end.

(** [a || b]. *)
Definition js_or (a b : value) : value := if truthy a then a else b.

(** [a === 'literal']. *)
Definition strict_eq_string (a : value) (s : string) : bool :=
  match a with
  | VStr s' => s' =? s
  | _ => false
  end.

Notation "x <~ r ;; k" := (bind_result r (fun x => k))
  (at level 61, r at next level, right associativity).

(* ----------------------------------------------------------------- *)
(** *** Start-up (lines 40-95 and 243) *)

(** How the start-up script ends. *)
Inductive boot : Type :=
| Exited (code : nat)
| Crashed (e : exn)
| Serving (cfg : config) (strings : value).

(** [exitWithError(err)]: [console.error(err); process.exit(1)]. *)
Definition exitWithError (err : string) : list event * boot :=
  ([ConsoleError (VStr err); ProcessExit 1], Exited 1).

(** [strings.k = _.assign({}, defaults, strings.k)] with [defaults] an
    object literal that starts with [title: strings.title]. *)
Definition extend (strings : value) (k : string) (more : object)
  : result value :=
  title <~ get_member strings "title" ;;
  old <~ get_member strings k ;;
  set_member strings k
    (VObj (Lodash.assign
             (Lodash.assign [] (VObj (("title", title) :: more))) old)).

(** The "extend strings" block. *)
Definition extend_strings (cfg : config) (yml : value) : result value :=
  s1 <~ extend yml "main" [("gaToken", gaToken cfg)] ;;
  s2 <~ extend s1 "signin"
          [("gaToken", gaToken cfg); ("clientId", clientId cfg)] ;;
  extend s2 "apply" [("gaToken", gaToken cfg)].

(** The script from the environment reads to [app.listen]; [yml] is what
    [yaml.safeLoad] made of [strings.yml].  [process.exit] ends the script
    where it is called.  (The session store set-up of lines 65-78 and the
    listening callback, which logs the bound address, have no part in what
    follows and are left out.) *)
Definition startup (env : environment) (yml : value) : list event * boot :=
  let cfg :=
    {| gaToken := getenv env "GA_TOKEN";
       slackUrl := getenv env "SLACK_WEBHOOK_URL";
       clientId := getenv env "GOOGLE_CLIENTID";
       channel := getenv env "SLACK_CHANNEL";
       botName := js_or (getenv env "SLACK_BOT_NAME") (VStr "SIR") |} in
  if negb (truthy (gaToken cfg)) then
    exitWithError "Please set GA_TOKEN environment variable."
  else if negb (truthy (slackUrl cfg)) then
    exitWithError "Please set SLACK_WEBHOOK_URL environment variable."
  else if negb (truthy (clientId cfg)) then
    exitWithError "Please set GOOGLE_CLIENTID environment variable."
  else
    match extend_strings cfg yml with
    | Throw e => ([], Crashed e)
    | Ok strings' =>
        ([Listen (js_or (getenv env "PORT") (VNum 3000))],
         Serving cfg strings')
    end.

(** Whether the script got as far as accepting requests. *)
Definition serves (b : list event * boot) : bool :=
  match snd b with
  | Serving _ _ => true
  | _ => false
  end.

(* ----------------------------------------------------------------- *)
(** *** Middleware *)

(** What a middleware does with the request: hand it on ([next()]) or
    answer it itself. *)
Inductive decision : Type := Next | Halt.

Definition middleware : Type := request -> M decision.
Definition handler : Type := request -> M unit.

(** [app.get(path, mw1, ..., handler)]: the middleware run in order, each
    one deciding whether the next layer runs. *)
Fixpoint route (mws : list middleware) (h : handler) : handler :=
  fun req =>
    match mws with
    | [] => h req
    | mw :: rest =>
        d <- mw req ;;
        match d with
        | Next => route rest h req
        | Halt => ret tt
        end
    end.

(** Lines 234-237, the error-handling middleware:
    [console.error(err.stack);]
    [res.status(500).send('Internal Server Error')]. *)
Definition error_handler (err : exn) : list event :=
  [ConsoleErrorStack err; Send 500 "Internal Server Error"].

(** Express around a route: an exception thrown while the layers run is
    handed to the error-handling middleware. *)
Definition express (h : handler) (req : request) (st : state)
  : list event * state :=
  match h req st with
  | (t, st', Ok _) => (t, st')
  | (t, st', Throw e) => (t ++ error_handler e, st')
  end.

(** The two answers the specification allows the guard. *)
Inductive guard_reply : Type :=
| RedirectToSignin
| AccessDenied (code : nat).

Definition reply_event (r : guard_reply) : event :=
  match r with
  | RedirectToSignin => Redirect "/signin"
  | AccessDenied code => SendStatus code
  end.

(** Modelled from the spec: [lib/validate.js] is not among the sources.
    The route guard: "If Session Gate returns nothing, responds with a
    redirect to the sign-in page (or an equivalent access denied status)
    and short-circuits; otherwise passes control through unchanged", the
    Session Gate being the look-up of [session.user]. *)
Definition validate (denial : guard_reply) : middleware :=
  fun req =>
    st <- get_state ;;
    if truthy (Dotty.get (req_value st req) ["session"; "user"])
    then ret Next
    else emit (reply_event denial) ;; ret Halt.

(** Modelled from the spec: [lib/slack.js] is not among the sources.  The
    Notifier: "sends the NotificationMessage to a preconfigured external
    endpoint [...] If delivery fails, the failure is only logged; the
    client is never informed and no retry is attempted".  [failure] is what
    the transport reports back, falsy when the message was delivered. *)
Definition slack (url : value) (failure : value) (payload : value)
  : list event :=
  SlackPost url payload ::
  (if truthy failure then [ConsoleError failure] else []).

(* ----------------------------------------------------------------- *)
(** *** Routes (lines 125-232) *)

Section Routes.

(** [changeCase.title], from the change-case package. *)
Variable title : string -> string.

(** [__dirname], the directory [server.js] is in. *)
Variable dirname : string.

(** [rateLimit()], from [lib/rate-limit.js], which is not among the
    sources: some middleware. *)
Variable rateLimit : middleware.

(** The answer [validate()] gives a visitor who is not signed in. *)
Variable denial : guard_reply.

(** The module variables the start-up script has set. *)
Variable cfg : config.

(** [dotty.get(req, 'session.user')]. *)
Definition session_user (st : state) (req : request) : value :=
  Dotty.get (req_value st req) ["session"; "user"].

(** [res.render(view, _.assign({}, strings.k, user))], [user] being
    [dotty.get(req, 'session.user')]. *)
Definition render_with (view k : string) : handler :=
  fun req =>
    st <- get_state ;;
    page <- lift (get_member (strings st) k) ;;
    emit (Render view
            (VObj (Lodash.assign (Lodash.assign [] page)
                     (session_user st req)))).

(** [GET /]. *)
Definition get_root : handler := render_with "main" "main".

(** [GET /tos]. *)
Definition get_tos : handler := render_with "tos" "tos".

(** [GET /signin]. *)
Definition get_signin : handler :=
  fun req =>
    st <- get_state ;;
    let user := session_user st req in
    if truthy user then emit (Redirect "/apply")
    else
      page <- lift (get_member (strings st) "signin") ;;
      emit (Render "signin" page).

(** [POST /signin], the function of lines 143-153. *)
Definition post_signin : handler :=
  fun req =>
    st <- get_state ;;
    let user := Dotty.get (req_value st req) ["body"; "user"] in
    if truthy user && strict_eq_string (prop user "kind") "plus#person" then
      emit (ConsoleLog ("User " ++ dquote ++ "%s" ++ dquote ++ " logged in")
              [prop user "displayName"]) ;;
      put_state {| session := obj_set (session st) "user" user;
                   strings := strings st |} ;;
      emit (SendStatus 200)
    else
      emit (SendStatus 401).

(** [GET /thanks], the function of lines 155-157. *)
Definition get_thanks : handler := render_with "thanks" "main".

(** [strings.apply.form.f.value = x], with [x] already evaluated. *)
Definition prefill (f : string) (x : value) : M unit :=
  st <- get_state ;;
  strings' <- lift (set_path (strings st) ["apply"; "form"; f; "value"] x) ;;
  put_state {| session := session st; strings := strings' |}.

(** The left-hand side [strings.apply.form.f] of such an assignment, which
    is evaluated before the right-hand side. *)
Definition prefill_target (f : string) : M value :=
  st <- get_state ;;
  a <- lift (get_member (strings st) "apply") ;;
  form <- lift (get_member a "form") ;;
  lift (get_member form f).

(** [user.emails[0].value]. *)
Definition first_email (user : value) : result value :=
  emails <~ get_member user "emails" ;;
  first <~ get_member emails "0" ;;
  get_member first "value".

(** [GET /apply], the function of lines 159-166. *)
Definition get_apply : handler :=
  fun req =>
    st <- get_state ;;
    let user := session_user st req in
    _ <- prefill_target "fullName" ;;
    displayName <- lift (get_member user "displayName") ;;
    prefill "fullName" displayName ;;
    _ <- prefill_target "email" ;;
    email <- lift (first_email user) ;;
    prefill "email" email ;;
    st' <- get_state ;;
    page <- lift (get_member (strings st') "apply") ;;
    emit (Render "apply" (VObj (Lodash.assign (Lodash.assign [] page) user))).

(** One turn of the [for (var field in files)] loop of lines 175-187: the
    descriptor gains [dest] and [uri], and a rename job is pushed. *)
Definition relocate_step (origin : string)
  (acc : list (string * upload) * list Async.job) (entry : string * upload)
  : list (string * upload) * list Async.job :=
  let field := fst entry in
  let fileObj := snd entry in
  let tmpPath := path fileObj in
  let filename := (field ++ "-" ++ name fileObj)%string in
  let dest := (dirname ++ "/public/images/" ++ filename)%string in
  (fst acc ++ [(field, assign_upload fileObj dest
                         (origin ++ "/images/" ++ filename)%string)],
   snd acc ++ [(tmpPath, dest)]).

(** The whole loop: [req.files] after it, and [renameJobs]. *)
Definition relocate (origin : string) (files : list (string * upload))
  : list (string * upload) * list Async.job :=
  fold_left (relocate_step origin) files ([], []).

(** The callback of the inner [_.map] (lines 214-216):
    [function (str, i) { return i ? str : changeCase.title(str); }].  At
    index 0 [str] is the property name, a string. *)
Definition title_first (str : value) (i : nat) : value :=
  match i with
  | O => VStr (title (to_string str))
  | S _ => str
  end.

(** Lines 210-220: one attachment field per property of the body other
    than [comments]. *)
Definition text_fields (body : object) : list value :=
  map
    (Lodash.flow
       (fun x : list value => x)
       (fun pair => Lodash.map_array pair title_first)
       (Lodash.zipObject ["title"; "value"])
       (fun o => VObj (Lodash.assign o (VObj [("short", VBool true)]))))
    (Lodash.pairs (Lodash.omit body "comments")).

(** Lines 221-227: one attachment field per upload. *)
Definition file_fields (files : list (string * upload)) : list value :=
  Lodash.map_object files
    (fun file =>
       VObj [("title", VStr (fieldname file));
             ("value", VStr ("<" ++ opt_to_string (uri file) ++ "|View>"));
             ("short", VBool true)]).

(** Lines 197-230, the argument of [slack(...)]. *)
Definition slack_payload (origin : string) (user : value) (body : object)
  (files : list (string * upload)) : result value :=
  fallback <~ get_member user "displayName" ;;
  author_name <~ get_member user "displayName" ;;
  author_link <~ get_member user "url" ;;
  let comments := prop (VObj body) "comments" in
  Ok (VObj
        [("channel", channel cfg);
         ("username", botName cfg);
         ("icon_url", VStr (origin ++ "images/bot.png"));
         ("attachments",
          VArr
            [VObj
               [("fallback",
                 VStr (to_string fallback ++ " wants to join Slack"));
                ("author_name", author_name);
                ("author_link", author_link);
                ("author_icon", Dotty.get user ["image"; "url"]);
                ("color", VStr "#28f428");
                ("pretext", VStr "New invite request:");
                ("text",
                 if truthy comments
                 then VStr (dquote ++ to_string comments ++ dquote)
                 else VUndef);
                ("fields",
                 VArr (text_fields body ++ file_fields files) [])]]
            [])]).

(** An exception inside a callback that runs after the handler has
    returned reaches nobody: the process dies of it. *)
Definition uncaught (e : exn) : list event :=
  [ConsoleErrorStack e; ProcessExit 1].

(** Lines 189-231, the callback given to [async.parallel]. *)
Definition moved (req : request) (user : value)
  (files : list (string * upload)) (failure : value) (err : value)
  : list event :=
  if truthy err then
    [ConsoleError err; SendStatus 500]
  else
    Redirect "/thanks" ::
    match slack_payload (originUri req) user (body req) files with
    | Ok payload => slack (slackUrl cfg) failure payload
    | Throw e => uncaught e
    end.

(** [POST /apply], the function of lines 168-232.  [reports] is the order
    and outcome in which the moves call back, [failure] what the webhook
    call ends with. *)
Definition post_apply (reports : list Async.report) (failure : value)
  : handler :=
  fun req =>
    st <- get_state ;;
    let user := session_user st req in
    displayName <- lift (get_member user "displayName") ;;
    email <- lift (first_email user) ;;
    emit (ConsoleLog
            ("Received application from " ++ dquote ++ "%s <%s>" ++ dquote)
            [displayName; email]) ;;
    let '(files', renameJobs) := relocate (originUri req) (files req) in
    emit_all (Async.parallel renameJobs reports
                (moved req user files' failure)).

(** The routing table. *)
Definition GET_root : handler := route [] get_root.
Definition GET_tos : handler := route [] get_tos.
Definition GET_signin : handler := route [] get_signin.
Definition POST_signin : handler := route [rateLimit] post_signin.
Definition GET_thanks : handler := route [validate denial] get_thanks.
Definition GET_apply : handler := route [validate denial] get_apply.
Definition POST_apply (reports : list Async.report) (failure : value)
  : handler :=
  route [validate denial; rateLimit] (post_apply reports failure).

End Routes.

(* ================================================================= *)
(** ** Sample data *)

Module Sample.

(** [changeCase.title] on the two field names of the application form. *)
Definition title (s : string) : string :=
  if s =? "fullName" then "Full Name"
  else if s =? "email" then "Email"
  else s.

Definition jane : value :=
  VObj [("kind", VStr "plus#person");
        ("displayName", VStr "Jane Doe");
        ("emails", VArr [VObj [("value", VStr "jane@x.com")]] []);
        ("url", VStr "https://plus.example/jane")].

(** An identity whose provider sent no e-mail address. *)
Definition nomail : value :=
  VObj [("kind", VStr "plus#person");
        ("displayName", VStr "No Mail");
        ("emails", VArr [] [])].

Definition cfg : config :=
  {| gaToken := VStr "UA-1";
     slackUrl := VStr "https://hooks.example/T";
     clientId := VStr "cid";
     channel := VUndef;
     botName := VStr "SIR" |}.

Definition yml : value :=
  VObj [("title", VStr "Join");
        ("main", VObj [("lead", VStr "Welcome")]);
        ("signin", VObj []);
        ("apply",
         VObj [("form",
                VObj [("fullName", VObj [("label", VStr "Name")]);
                      ("email", VObj [("label", VStr "E-mail")])])])].

Definition signed_in (user : value) : state :=
  {| session := [("user", user)]; strings := yml |}.

Definition anonymous : state := {| session := []; strings := yml |}.

Definition submission : request :=
  {| protocol := "http";
     host := Some "example.com";
     body := [("fullName", VStr "Jane Doe");
              ("comments", VStr "hi");
              ("email", VStr "jane@x.com")];
     files :=
       [("resume", mkUpload "resume" "cv.pdf" "cv.pdf" "/tmp/a1" None None);
        ("photo", mkUpload "photo" "me.png" "me.png" "/tmp/a2" None None)] |}.

Definition plain_get : request :=
  {| protocol := "http"; host := Some "example.com";
     body := []; files := [] |}.

(** A rate limiter that lets everything through. *)
Definition open_limiter : middleware := fun _ => ret Next.

(** An environment with every variable the start-up script insists on,
    and no [SLACK_CHANNEL]. *)
Definition env_without_channel : environment :=
  fun k =>
    if k =? "GA_TOKEN" then Some "UA-1"
    else if k =? "SLACK_WEBHOOK_URL" then Some "https://hooks.example/T"
    else if k =? "GOOGLE_CLIENTID" then Some "cid"
    else None.

(** The same without [GOOGLE_CLIENTID]. *)
Definition env_without_client : environment :=
  fun k =>
    if k =? "GA_TOKEN" then Some "UA-1"
    else if k =? "SLACK_WEBHOOK_URL" then Some "https://hooks.example/T"
    else None.

End Sample.

(* ================================================================= *)
(** ** What a trace says *)

Definition report_event (r : Async.report) : event :=
  MvReport (fst r) (snd r).

Definition is_report (e : event) : bool :=
  match e with
  | MvReport _ _ => true
  | _ => false
  end.

Definition failed (r : Async.report) : bool := truthy (snd r).

(** No move calls back after the response has been sent: the response
    waited for all of them. *)
Fixpoint joined (t : list event) : bool :=
  match t with
  | [] => true
  | e :: rest =>
      if is_response e then forallb (fun e' => negb (is_report e')) rest
      else joined rest
  end.

Fixpoint distinct (l : list nat) : bool :=
  match l with
  | [] => true
  | x :: rest => negb (existsb (Nat.eqb x) rest) && distinct rest
  end.

(** Only the [n] moves that were started call back, each at most once. *)
Definition wf_reports (n : nat) (reports : list Async.report) : bool :=
  forallb (fun r : Async.report => (fst r <? n)%nat) reports
  && distinct (map fst reports).

(** [payload.attachments[0].fields]. *)
Definition notification_fields (payload : value) : value :=
  prop (prop (prop payload "attachments") "0") "fields".

(** The attachment field of a text field and of an upload, as the
    specification words them. *)
Definition text_entry (title : string -> string) (kv : string * value)
  : value :=
  VObj [("title", VStr (title (fst kv)));
        ("value", snd kv);
        ("short", VBool true)].

(** Destination path and public URI of an upload, as the specification
    words them. *)
Definition public_path (dirname field filename : string) : string :=
  dirname ++ "/public/images/" ++ field ++ "-" ++ filename.

Definition public_uri (origin field filename : string) : string :=
  origin ++ "/images/" ++ field ++ "-" ++ filename.

Definition file_entry (origin : string) (entry : string * upload) : value :=
  VObj [("title", VStr (fieldname (snd entry)));
        ("value",
         VStr ("<" ++ public_uri origin (fst entry) (name (snd entry))
                   ++ "|View>"));
        ("short", VBool true)].

Definition non_comment (kv : string * value) : bool :=
  negb (fst kv =? "comments").

(** What the loop makes of one entry of [req.files]. *)
Definition relocated (dirname origin : string) (entry : string * upload)
  : string * upload :=
  (fst entry,
   assign_upload (snd entry)
     (public_path dirname (fst entry) (name (snd entry)))
     (public_uri origin (fst entry) (name (snd entry)))).

Definition rename_job (dirname : string) (entry : string * upload)
  : Async.job :=
  (path (snd entry), public_path dirname (fst entry) (name (snd entry))).

(** The message a submission is announced with. *)
Definition announcement (title : string -> string) (cfg : config)
  (origin : string) (user : value) (body : object)
  (files : list (string * upload)) : value :=
  VObj
    [("channel", channel cfg);
     ("username", botName cfg);
     ("icon_url", VStr (origin ++ "images/bot.png"));
     ("attachments",
      VArr
        [VObj
           [("fallback",
             VStr (to_string (prop user "displayName")
                     ++ " wants to join Slack"));
            ("author_name", prop user "displayName");
            ("author_link", prop user "url");
            ("author_icon", Dotty.get user ["image"; "url"]);
            ("color", VStr "#28f428");
            ("pretext", VStr "New invite request:");
            ("text",
             if truthy (prop (VObj body) "comments")
             then VStr (dquote ++ to_string (prop (VObj body) "comments")
                               ++ dquote)
             else VUndef);
            ("fields",
             VArr (map (text_entry title) (filter non_comment body)
                     ++ map (file_entry origin) files) [])]]
        [])].

(** Line 173. *)
Definition received (user email : value) : event :=
  ConsoleLog ("Received application from " ++ dquote ++ "%s <%s>" ++ dquote)
    [prop user "displayName"; email].

(** A computation that emits nothing, and one that emits nothing and
    throws. *)
Definition calm {A : Type} (m : M A) : Prop :=
  forall st, exists st' r, m st = ([], st', r).

Definition aborts {A : Type} (m : M A) : Prop :=
  forall st, exists st', m st = ([], st', Throw TypeError).

(* ----------------------------------------------------------------- *)
(** *** Vocabulary for the remaining handlers *)

(** [typeof v === 'object' && v !== null]. *)
Definition is_object (v : value) : bool :=
  match v with
  | VObj _ | VArr _ _ => true
  | _ => false
  end.

(** [v], and what is found along [path] in it, are plain objects. *)
Fixpoint plain (v : value) (path : list string) : bool :=
  match v with
  | VObj o =>
      match path with
      | [] => true
      | k :: rest => plain (or_undef (lookup k o)) rest
      end
  | _ => false
  end.

(** A well-formed object has each property once. *)
Definition keys (o : object) : list string := map fst o.

(** No ['-'] in a field name. *)
Fixpoint hyphen_free (s : string) : bool :=
  match s with
  | EmptyString => true
  | String c rest => negb (Ascii.eqb c "-"%char) && hyphen_free rest
  end.

(** The second argument of the [_.assign] calls of lines 83-95. *)
Definition page_defaults (env : environment) (yml : value) (page : string)
  : object :=
  ("title", prop yml "title") :: ("gaToken", getenv env "GA_TOKEN")
  :: (if page =? "signin"
      then [("clientId", getenv env "GOOGLE_CLIENTID")]
      else []).

(** The variables the start-up script insists on, in the order it asks
    for them, and the first of them that is unset or empty. *)
Definition required : list string :=
  ["GA_TOKEN"; "SLACK_WEBHOOK_URL"; "GOOGLE_CLIENTID"].

Definition first_missing (env : environment) : option string :=
  find (fun k => negb (truthy (getenv env k))) required.

(** The pages whose strings the start-up script extends. *)
Definition pages : list string := ["main"; "signin"; "apply"].

(** A computation that, from a state satisfying [I], ends in one, and
    whose returned value satisfies [Q]. *)
Definition keeps {A : Type} (I : state -> Prop) (m : M A) (Q : A -> Prop)
  : Prop :=
  forall st,
    I st ->
    I (state_of (m st)) /\ forall a, result_of (m st) = Ok a -> Q a.

(** The session is [s0] and the strings are an object. *)
Definition settled (s0 : object) (st : state) : Prop :=
  session st = s0 /\ is_object (strings st) = true.


(** A computation that sends no response, and one that sends exactly one
    when it returns and none when it throws. *)
Definition silent {A : Type} (m : M A) : Prop :=
  forall st, responses (trace_of (m st)) = [].

Definition answers {A : Type} (m : M A) : Prop :=
  forall st,
    match result_of (m st) with
    | Ok _ => List.length (responses (trace_of (m st))) = 1
    | Throw _ => responses (trace_of (m st)) = []
    end.

(* ----------------------------------------------------------------- *)
(** *** The server as a state machine *)

(** The session store, keyed by the client's session id, and the strings
    all clients share. *)
Record server : Type := mkServer {
  sessions : list (string * object);
  shared : value
}.

Fixpoint session_of (sid : string) (store : list (string * object))
  : object :=
  match store with
  | [] => []
  | (sid', s) :: rest => if sid' =? sid then s else session_of sid rest
  end.

Fixpoint store_session (sid : string) (s : object)
  (store : list (string * object)) : list (string * object) :=
  match store with
  | [] => [(sid, s)]
  | (sid', s') :: rest =>
      if sid' =? sid then (sid, s) :: rest
      else (sid', s') :: store_session sid s rest
  end.

(** The routes of [server.js]. *)
Inductive endpoint : Type :=
| GetRoot
| GetTos
| GetSignin
| PostSignin
| GetThanks
| GetApply
| PostApply (reports : list Async.report) (failure : value).

Section Dispatch.

Variable title : string -> string.
Variable dirname : string.
Variable rateLimit : middleware.
Variable denial : guard_reply.
Variable cfg : config.

Definition route_of (ep : endpoint) : handler :=
  match ep with
  | GetRoot => GET_root
  | GetTos => GET_tos
  | GetSignin => GET_signin
  | PostSignin => POST_signin rateLimit
  | GetThanks => GET_thanks denial
  | GetApply => GET_apply denial
  | PostApply reports failure =>
      POST_apply title dirname rateLimit denial cfg reports failure
  end.

(** One request: the client's session is fetched, the route runs under
    Express, and the session and the strings are what it left. *)
Definition serve (sid : string) (ep : endpoint) (req : request)
  (srv : server) : list event * server :=
  let st := {| session := session_of sid (sessions srv);
               strings := shared srv |} in
  let out := express (route_of ep) req st in
  (fst out,
   {| sessions := store_session sid (session (snd out)) (sessions srv);
      shared := strings (snd out) |}).

(** A sequence of requests, each by some client. *)
Fixpoint run (calls : list (string * endpoint * request)) (srv : server)
  : server :=
  match calls with
  | [] => srv
  | (sid, ep, req) :: rest => run rest (snd (serve sid ep req srv))
  end.

End Dispatch.

(** A middleware that keeps its books elsewhere than in the session and
    the strings. *)
Definition bystander (mw : middleware) : Prop :=
  forall req st, state_of (mw req st) = st.

(* ----------------------------------------------------------------- *)
(** *** A scenario *)

Module Scenario.

(** What the start-up script leaves with [Sample.env_without_channel] and
    [Sample.yml]. *)
Definition cfg : config :=
  Eval vm_compute in
    match snd (startup Sample.env_without_channel Sample.yml) with
    | Serving c _ => c
    | _ => Sample.cfg
    end.

Definition strings : value :=
  Eval vm_compute in
    match snd (startup Sample.env_without_channel Sample.yml) with
    | Serving _ s => s
    | _ => VUndef
    end.

(** Alice (Jane Doe) is signed in; Bob is about to. *)
Definition server : server :=
  {| sessions := [("alice", [("user", Sample.jane)])];
     shared := strings |}.

Definition bob_signs_in : request :=
  {| protocol := "http"; host := Some "example.com";
     body := [("user", Sample.nomail)]; files := [] |}.

Definition calls : list (string * endpoint * request) :=
  [("bob", PostSignin, bob_signs_in);
   ("bob", GetApply, Sample.plain_get);
   ("alice", GetApply, Sample.plain_get);
   ("alice", PostApply [(1, VUndef); (0, VStr "EACCES")] VUndef,
    Sample.submission)].

(** One file, [cv.pdf], sent twice in the field [resume]: multer stores
    each upload under a name of its own making. *)
Definition first_upload : upload :=
  mkUpload "resume" "cv.pdf" "4bb9e3f0a1c25d7e8f6a0b1c2d3e4f50.pdf"
    "/tmp/4bb9e3f0a1c25d7e8f6a0b1c2d3e4f50.pdf" None None.

Definition second_upload : upload :=
  mkUpload "resume" "cv.pdf" "0f3c9a7b6e5d4c3b2a1908f7e6d5c4b3.pdf"
    "/tmp/0f3c9a7b6e5d4c3b2a1908f7e6d5c4b3.pdf" None None.

(** The descriptor of the first upload as a request through another host
    name would carry it. *)
Definition first_upload_again : upload :=
  mkUpload "resume" "curriculum.pdf" "4bb9e3f0a1c25d7e8f6a0b1c2d3e4f50.pdf"
    "/var/tmp/4bb9e3f0a1c25d7e8f6a0b1c2d3e4f50.pdf" None None.

End Scenario.

(* ================================================================= *)
(** ** Properties *)

Section Properties.

Variable title : string -> string.
Variable dirname : string.
Variable denial : guard_reply.
Variable cfg : config.

(* ----------------------------------------------------------------- *)
(** *** The relocation loop *)

Lemma relocate_from (origin : string) (files : list (string * upload)) :
  forall acc,
    fold_left (relocate_step dirname origin) files acc =
    (fst acc ++ map (relocated dirname origin) files,
     snd acc ++ map (rename_job dirname) files).
Proof.
  induction files as [|entry rest IH]; intros [done jobs]; simpl.
  - now rewrite !app_nil_r.
  - rewrite IH. simpl. now rewrite <- !app_assoc.
Qed.

Lemma relocate_maps (origin : string) (files : list (string * upload)) :
  relocate dirname origin files =
  (map (relocated dirname origin) files, map (rename_job dirname) files).
Proof. unfold relocate. now rewrite relocate_from. Qed.

(* ----------------------------------------------------------------- *)
(** *** The attachment fields *)

Lemma text_fields_entries (body : object) :
  text_fields title body = map (text_entry title) (filter non_comment body).
Proof.
  unfold text_fields, Lodash.pairs, Lodash.omit.
  rewrite map_map. apply map_ext. intros [k v]. reflexivity.
Qed.

Lemma file_fields_entries (origin : string) (files : list (string * upload)) :
  file_fields (map (relocated dirname origin) files) =
  map (file_entry origin) files.
Proof.
  unfold file_fields, Lodash.map_object. rewrite map_map.
  apply map_ext. intros [field f]. reflexivity.
Qed.

(* ----------------------------------------------------------------- *)
(** *** [async.parallel] *)

Lemma settle_called (callback : value -> list event) :
  forall reports n,
    Async.settle n true reports callback = map report_event reports.
Proof.
  induction reports as [|[i err] rest IH]; intros n; simpl; [reflexivity|].
  destruct (truthy err); simpl; now rewrite IH.
Qed.

(** Every move succeeds: the callback runs after the last report. *)
Lemma settle_success (callback : value -> list event) :
  forall reports n,
    forallb (fun r => negb (failed r)) reports = true ->
    List.length reports = S n ->
    Async.settle (S n) false reports callback =
    map report_event reports ++ callback VNull.
Proof.
  induction reports as [|[i err] rest IH]; intros n Hok Hlen; [discriminate|].
  simpl in Hok, Hlen. apply andb_true_iff in Hok as [Herr Hok].
  unfold failed in Herr; simpl in Herr. apply negb_true_iff in Herr.
  cbn [Async.settle]. rewrite Herr. simpl Nat.sub. rewrite Nat.sub_0_r.
  destruct n as [|m].
  - destruct rest; [|discriminate]. simpl. now rewrite app_nil_r.
  - simpl Nat.eqb. cbn [map report_event fst snd app].
    rewrite IH by (auto; lia). reflexivity.
Qed.

(** A move fails while fewer successes than tasks have come in: the
    callback runs then, and the later reports find it spent. *)
Lemma settle_failure (callback : value -> list event)
  (i : nat) (err : value) (post : list Async.report) :
  truthy err = true ->
  forall pre n,
    forallb (fun r => negb (failed r)) pre = true ->
    List.length pre < n ->
    Async.settle n false (pre ++ (i, err) :: post) callback =
    map report_event pre ++
    MvReport i err :: callback err ++ map report_event post.
Proof.
  intros Herr. induction pre as [|[j ok] rest IH]; intros n Hok Hlen.
  - simpl. rewrite Herr. now rewrite settle_called.
  - simpl in Hok, Hlen. apply andb_true_iff in Hok as [Hj Hok].
    unfold failed in Hj; simpl in Hj. apply negb_true_iff in Hj.
    cbn [Async.settle app]. rewrite Hj.
    destruct n as [|m]; [lia|]. simpl Nat.sub. rewrite Nat.sub_0_r.
    destruct m as [|m']; [lia|]. simpl Nat.eqb.
    cbn [map report_event fst snd app].
    rewrite IH by (auto; lia). reflexivity.
Qed.

(** The first failing report splits the list. *)
Lemma first_failure (reports : list Async.report) :
  existsb failed reports = true ->
  exists pre i err post,
    reports = pre ++ (i, err) :: post /\
    forallb (fun r => negb (failed r)) pre = true /\
    truthy err = true.
Proof.
  induction reports as [|[j e] rest IH]; simpl; [discriminate|].
  destruct (failed (j, e)) eqn:Hf; simpl.
  - intros _. exists [], j, e, rest. auto.
  - intros H. destruct (IH H) as (pre & i & err & post & -> & Hpre & Herr).
    exists ((j, e) :: pre), i, err, post. simpl. rewrite Hf. auto.
Qed.

Lemma distinct_NoDup (l : list nat) : distinct l = true -> NoDup l.
Proof.
  induction l as [|x rest IH]; simpl; intros H; constructor.
  - apply andb_true_iff in H as [H _]. apply negb_true_iff in H.
    intros Hin. assert (existsb (Nat.eqb x) rest = true) as E.
    { apply existsb_exists. exists x. split; [assumption|apply Nat.eqb_refl]. }
    congruence.
  - apply andb_true_iff in H as [_ H]. auto.
Qed.

(** Distinct reports of started moves are at most as many as the moves. *)
Lemma wf_reports_length (n : nat) (reports : list Async.report) :
  wf_reports n reports = true -> List.length reports <= n.
Proof.
  unfold wf_reports. intros H. apply andb_true_iff in H as [Hlt Hd].
  apply distinct_NoDup in Hd.
  assert (List.length (map fst reports) <= List.length (seq 0 n)) as Hle.
  { apply NoDup_incl_length; [assumption|].
    intros x Hx. apply in_map_iff in Hx as (r & <- & Hr).
    rewrite forallb_forall in Hlt. specialize (Hlt r Hr).
    apply Nat.ltb_lt in Hlt. apply in_seq. lia. }
  now rewrite length_map, length_seq in Hle.
Qed.

Lemma settle_events (callback : value -> list event) (e : event) :
  forall reports n called,
    In e (Async.settle n called reports callback) ->
    is_report e = true \/ exists err, In e (callback err).
Proof.
  induction reports as [|[i err] rest IH]; intros n called; simpl;
    [tauto|].
  intros [<-|Hin]; [now left|].
  destruct (truthy err), called; simpl in Hin;
    repeat match goal with
           | H : In _ (_ ++ _) |- _ => apply in_app_or in H as [H|H]
           | H : In _ (if ?c then _ else _) |- _ => destruct c
           | H : In _ [] |- _ => destruct H
           end;
    eauto.
Qed.

Lemma parallel_events (tasks : list Async.job) (reports : list Async.report)
  (callback : value -> list event) (e : event) :
  In e (Async.parallel tasks reports callback) ->
  is_mv e = true \/ is_report e = true \/ exists err, In e (callback err).
Proof.
  unfold Async.parallel. intros H. apply in_app_or in H as [H|H].
  - left. apply in_map_iff in H as (j & <- & _). reflexivity.
  - right. destruct tasks; [right; eauto|].
    now apply settle_events in H.
Qed.

Lemma parallel_started (tasks : list Async.job)
  (reports : list Async.report) (callback : value -> list event) :
  0 < List.length tasks ->
  Async.parallel tasks reports callback =
  map Async.start tasks
  ++ Async.settle (List.length tasks) false reports callback.
Proof. destruct tasks; simpl; [lia|reflexivity]. Qed.

(* ----------------------------------------------------------------- *)
(** *** The submission handler, step by step *)

Lemma session_user_lookup (st : state) (req : request) :
  session_user st req = or_undef (lookup "user" (session st)).
Proof. reflexivity. Qed.

Lemma body_user_lookup (st : state) (req : request) :
  Dotty.get (req_value st req) ["body"; "user"] =
  or_undef (lookup "user" (body req)).
Proof. reflexivity. Qed.

Lemma slack_payload_value (origin : string) (user : value) (body : object)
  (files : list (string * upload)) :
  slack_payload title cfg origin user body
    (map (relocated dirname origin) files) =
  if nullish user then Throw TypeError
  else Ok (announcement title cfg origin user body files).
Proof.
  unfold slack_payload, get_member. destruct (nullish user); simpl;
    [reflexivity|].
  rewrite text_fields_entries, file_fields_entries. reflexivity.
Qed.

Lemma first_email_nullish (user : value) :
  nullish user = true -> first_email user = Throw TypeError.
Proof. unfold first_email, get_member. now intros ->. Qed.

(** The handler either throws before it has done anything, or logs the
    application and hands the moves to [async.parallel]. *)
Lemma post_apply_run (reports : list Async.report) (failure : value)
  (req : request) (st : state) :
  let user := session_user st req in
  post_apply title dirname cfg reports failure req st =
  match first_email user with
  | Throw e => ([], st, Throw e)
  | Ok email =>
      (received user email
       :: Async.parallel (map (rename_job dirname) (files req)) reports
            (moved title cfg req user
               (map (relocated dirname (originUri req)) (files req)) failure),
       st, Ok tt)
  end.
Proof.
  intros user. unfold post_apply, bind, get_state, lift, emit, emit_all.
  fold user. rewrite relocate_maps.
  destruct (nullish user) eqn:Hn.
  - rewrite first_email_nullish by assumption.
    unfold get_member. now rewrite Hn.
  - unfold get_member at 1. rewrite Hn.
    destruct (first_email user) as [email|e]; reflexivity.
Qed.

Lemma first_email_ok (user email : value) :
  first_email user = Ok email -> nullish user = false.
Proof.
  destruct (nullish user) eqn:Hn; [|reflexivity].
  rewrite first_email_nullish by assumption. discriminate.
Qed.

(** What the callback of [async.parallel] does once the handler has got
    past line 173. *)
Lemma moved_value (req : request) (user : value) (failure err : value) :
  nullish user = false ->
  moved title cfg req user (map (relocated dirname (originUri req)) (files req))
    failure err =
  if truthy err then [ConsoleError err; SendStatus 500]
  else Redirect "/thanks" ::
       slack (slackUrl cfg) failure
         (announcement title cfg (originUri req) user (body req) (files req)).
Proof.
  intros Hn. unfold moved. rewrite slack_payload_value, Hn. reflexivity.
Qed.

(** Every message posted by the handler is the announcement. *)
Lemma slack_post_inv (reports : list Async.report) (failure : value)
  (req : request) (st : state) (url payload : value) :
  In (SlackPost url payload)
     (trace_of (post_apply title dirname cfg reports failure req st)) ->
  url = slackUrl cfg /\
  payload =
  announcement title cfg (originUri req) (session_user st req) (body req)
    (files req).
Proof.
  rewrite post_apply_run.
  destruct (first_email (session_user st req)) as [email|e] eqn:He;
    unfold trace_of; simpl; [|tauto].
  apply first_email_ok in He.
  intros [H|H]; [discriminate|].
  apply parallel_events in H as [H|[H|[err H]]]; try discriminate.
  rewrite moved_value in H by assumption.
  unfold slack in H.
  destruct (truthy err), (truthy failure); simpl in H;
    repeat match goal with
           | H : _ \/ _ |- _ => destruct H
           | H : False |- _ => destruct H
           | H : _ = SlackPost _ _ |- _ => inversion H; clear H
           end; subst; auto.
Qed.

Lemma nodup_absorb (a b : list string) :
  incl a b -> nodup string_dec (a ++ b) = nodup string_dec b.
Proof.
  induction a as [|x a IH]; intros Hincl; [reflexivity|].
  simpl. destruct (in_dec string_dec x (a ++ b)) as [_|Hout].
  - apply IH. intros y Hy. apply Hincl. now right.
  - exfalso. apply Hout, in_or_app. right. apply Hincl. now left.
Qed.

Lemma get_after (s t : string) :
  String.get (String.length s) (s ++ t) = String.get 0 t.
Proof.
  induction s as [|c s IH]; simpl; [reflexivity|assumption].
Qed.

(* ----------------------------------------------------------------- *)
(** *** The notification *)

(** C1.  Whatever message [POST /apply] posts to the chat carries, in
    [attachments[0].fields], one entry per property of the body other than
    [comments], in the body's order, followed by one entry per upload, in
    the order of [req.files]: N + M entries.  A text entry is
    [{title: changeCase.title(name), value: value, short: true}] with the
    value untouched; a file entry is
    [{title: file.fieldname, value: '<' + uri + '|View>', short: true}]
    with [uri] the upload's public URI. *)
Theorem notification_fields_cover_submission
  (reports : list Async.report) (failure : value)
  (req : request) (st : state) (url payload : value) :
  In (SlackPost url payload)
     (trace_of (post_apply title dirname cfg reports failure req st)) ->
  notification_fields payload =
    VArr (map (text_entry title) (filter non_comment (body req))
            ++ map (file_entry (originUri req)) (files req)) []
  /\ List.length
       (map (text_entry title) (filter non_comment (body req))
          ++ map (file_entry (originUri req)) (files req)) =
     List.length (filter non_comment (body req)) + List.length (files req).
Proof.
  intros H. apply slack_post_inv in H as [_ ->]. split.
  - reflexivity.
  - now rewrite length_app, !length_map.
Qed.

(** C9.  The [icon_url] of every message posted is the request origin,
    [protocol + '://' + host], immediately followed by [images/bot.png]:
    the character after the origin is the [i] of [images], not a [/];
    the URIs of the relocated files, in contrast, put [/images/] after the
    origin. *)
Theorem icon_url_lacks_separator
  (reports : list Async.report) (failure : value)
  (req : request) (st : state) (url payload : value) :
  In (SlackPost url payload)
     (trace_of (post_apply title dirname cfg reports failure req st)) ->
  prop payload "icon_url" =
    VStr ((protocol req ++ "://" ++ opt_to_string (host req))
            ++ "images/bot.png")
  /\ String.get (String.length (originUri req))
       (originUri req ++ "images/bot.png") = Some "i"%char
  /\ Forall
       (fun entry =>
          uri (snd entry) =
          Some (originUri req ++ "/images/" ++ fst entry ++ "-"
                  ++ name (snd entry))%string)
       (fst (relocate dirname (originUri req) (files req))).
Proof.
  intros H. apply slack_post_inv in H as [_ ->]. repeat split.
  - apply get_after.
  - rewrite relocate_maps. simpl. apply Forall_forall.
    intros entry Hin. apply in_map_iff in Hin as ([field f] & <- & _).
    reflexivity.
Qed.

(* ----------------------------------------------------------------- *)
(** *** The Upload Relocator *)

(** C5, as the code has it.  The relocation loop is a function of its
    input: each upload gets the destination
    [__dirname + '/public/images/' + field + '-' + fileObj.name] and the
    URI [origin + '/images/' + field + '-' + fileObj.name], [fileObj.name]
    being the name multer stored the upload under, not the original
    filename; its rename job goes from the temporary path to that
    destination.  Uploads with the same field names and stored names (from
    whatever temporary paths, origin and original filenames) get the same
    destinations, so that together they occupy no more paths than the
    first of them. *)
Theorem relocation_is_deterministic
  (origin origin' : string) (files files' : list (string * upload)) :
  map (fun entry => (fst entry, name (snd entry))) files' =
  map (fun entry => (fst entry, name (snd entry))) files ->
  relocate dirname origin files =
    (map (fun entry =>
            (fst entry,
             assign_upload (snd entry)
               (public_path dirname (fst entry) (name (snd entry)))
               (public_uri origin (fst entry) (name (snd entry)))))
         files,
     map (fun entry =>
            (path (snd entry),
             public_path dirname (fst entry) (name (snd entry))))
         files)
  /\ map snd (snd (relocate dirname origin' files')) =
     map snd (snd (relocate dirname origin files))
  /\ nodup string_dec
       (map snd (snd (relocate dirname origin files))
          ++ map snd (snd (relocate dirname origin' files'))) =
     nodup string_dec (map snd (snd (relocate dirname origin files))).
Proof.
  intros Hsame.
  assert (map snd (snd (relocate dirname origin' files')) =
          map snd (snd (relocate dirname origin files))) as Hdest.
  { rewrite !relocate_maps. simpl. rewrite !map_map.
    change (fun x => snd (rename_job dirname x))
      with (fun x : string * upload =>
              (fun p => public_path dirname (fst p) (snd p))
                ((fun entry => (fst entry, name (snd entry))) x)).
    rewrite <- !(map_map (fun entry : string * upload =>
                            (fst entry, name (snd entry)))
                         (fun p => public_path dirname (fst p) (snd p))).
    now rewrite Hsame. }
  split; [apply relocate_maps|]. split; [assumption|].
  rewrite Hdest. apply nodup_absorb, incl_refl.
Qed.

(* ----------------------------------------------------------------- *)
(** *** Failure and success of the moves *)

Lemma filter_none {A : Type} (f : A -> bool) (l : list A) :
  (forall x, In x l -> f x = false) -> filter f l = [].
Proof.
  induction l as [|x l IH]; intros H; simpl; [reflexivity|].
  rewrite (H x) by now left. apply IH. intros y Hy. apply H. now right.
Qed.

Lemma filter_all {A : Type} (f : A -> bool) (l : list A) :
  (forall x, In x l -> f x = true) -> filter f l = l.
Proof.
  induction l as [|x l IH]; intros H; simpl; [reflexivity|].
  rewrite (H x) by now left. f_equal. apply IH. intros y Hy. apply H.
  now right.
Qed.

Lemma filter_reports (f : event -> bool) (l : list Async.report) :
  (forall i err, f (MvReport i err) = false) ->
  filter f (map report_event l) = [].
Proof.
  intros H. apply filter_none. intros x Hx.
  apply in_map_iff in Hx as (r & <- & _). apply H.
Qed.

Lemma filter_starts (f : event -> bool) (l : list Async.job) :
  (forall src dst, f (Mv src dst) = false) ->
  filter f (map Async.start l) = [].
Proof.
  intros H. apply filter_none. intros x Hx.
  apply in_map_iff in Hx as (r & <- & _). apply H.
Qed.

Lemma filter_mv_starts (l : list Async.job) :
  filter is_mv (map Async.start l) = map Async.start l.
Proof.
  apply filter_all. intros x Hx.
  now apply in_map_iff in Hx as (r & <- & _).
Qed.

Ltac sieve :=
  unfold responses;
  repeat (rewrite ?filter_app, ?filter_mv_starts;
          try rewrite !filter_reports by reflexivity;
          try rewrite !filter_starts by reflexivity;
          cbn [filter is_response is_slack is_mv received app]);
  rewrite ?app_nil_r.

(** C4, as the code has it.  When a move of a submission fails, the
    [async.parallel] callback runs at the first failing report: the error
    is logged and the client is answered 500, once; there is no redirect
    and no message to the chat.  The moves that report later do so after
    the response.  The only moves ever started are the rename jobs of the
    uploads: nothing is moved back. *)
Theorem failed_move_answers_500
  (reports : list Async.report) (failure : value)
  (req : request) (st : state) :
  result_of (post_apply title dirname cfg reports failure req st) = Ok tt ->
  wf_reports (List.length (files req)) reports = true ->
  existsb failed reports = true ->
  exists pre i err post email,
    reports = pre ++ (i, err) :: post
    /\ forallb (fun r => negb (failed r)) pre = true
    /\ truthy err = true
    /\ trace_of (post_apply title dirname cfg reports failure req st) =
       received (session_user st req) email
       :: map Async.start (snd (relocate dirname (originUri req) (files req)))
       ++ map report_event pre
       ++ MvReport i err :: ConsoleError err :: SendStatus 500
       :: map report_event post
    /\ responses
         (trace_of (post_apply title dirname cfg reports failure req st)) =
       [SendStatus 500]
    /\ filter is_slack
         (trace_of (post_apply title dirname cfg reports failure req st)) = []
    /\ filter is_mv
         (trace_of (post_apply title dirname cfg reports failure req st)) =
       map Async.start (snd (relocate dirname (originUri req) (files req))).
Proof.
  intros Hrun Hwf Hfail.
  destruct (first_failure _ Hfail) as (pre & i & err & post & -> & Hpre & Herr).
  apply wf_reports_length in Hwf. rewrite length_app in Hwf. simpl in Hwf.
  assert (List.length pre < List.length (files req)) as Hlt
    by (clear - Hwf; lia).
  assert (0 < List.length (files req)) as Hpos by (clear - Hwf; lia).
  rewrite post_apply_run in *. rewrite relocate_maps.
  destruct (first_email (session_user st req)) as [email|e] eqn:He;
    [|discriminate].
  apply first_email_ok in He.
  exists pre, i, err, post, email.
  assert (trace_of
            (received (session_user st req) email
             :: Async.parallel (map (rename_job dirname) (files req))
                  (pre ++ (i, err) :: post)
                  (moved title cfg req (session_user st req)
                     (map (relocated dirname (originUri req)) (files req))
                     failure),
             st, @Ok unit tt) =
          received (session_user st req) email
          :: map Async.start (map (rename_job dirname) (files req))
          ++ map report_event pre
          ++ MvReport i err :: ConsoleError err :: SendStatus 500
          :: map report_event post) as Htrace.
  { unfold trace_of. simpl.
    rewrite parallel_started by now rewrite length_map.
    rewrite length_map, settle_failure by auto.
    rewrite moved_value, Herr by assumption. reflexivity. }
  repeat split; try assumption; rewrite Htrace; simpl snd; try reflexivity;
    sieve; reflexivity.
Qed.


(* ----------------------------------------------------------------- *)
(** *** Signing in *)

Lemma lookup_obj_set (o : object) (k : string) (v : value) :
  lookup k (obj_set o k v) = Some v.
Proof.
  induction o as [|[k' v'] rest IH]; simpl.
  - now rewrite String.eqb_refl.
  - destruct (k' =? k) eqn:E; simpl.
    + now rewrite String.eqb_refl.
    + now rewrite E.
Qed.

(** Only an object (or array) can have a [kind]. *)
Lemma person_is_truthy (user : value) :
  strict_eq_string (prop user "kind") "plus#person" = true ->
  truthy user = true.
Proof. destruct user; simpl; try discriminate; reflexivity. Qed.

Lemma post_signin_run (req : request) (st : state) :
  post_signin req st =
  let user := or_undef (lookup "user" (body req)) in
  if truthy user && strict_eq_string (prop user "kind") "plus#person"
  then ([ConsoleLog ("User " ++ dquote ++ "%s" ++ dquote ++ " logged in")
           [prop user "displayName"];
         SendStatus 200],
        {| session := obj_set (session st) "user" user;
           strings := strings st |},
        Ok tt)
  else ([SendStatus 401], st, Ok tt).
Proof.
  unfold post_signin, bind, get_state, put_state, emit.
  rewrite body_user_lookup. cbv zeta.
  now destruct (truthy (or_undef (lookup "user" (body req)))
                && strict_eq_string
                     (prop (or_undef (lookup "user" (body req))) "kind")
                     "plus#person").
Qed.

(** C2.  The [POST /signin] handler always returns.  If the body has a
    [user] whose [kind] is ['plus#person'], the response is 200 and the
    session has that very value as its [user], nothing else being
    touched; in every other case ([user] missing, or of another kind) the
    response is 401 and the state is the one the handler found. *)
Theorem signin_accepts_person_only (req : request) (st : state) :
  result_of (post_signin req st) = Ok tt
  /\ match lookup "user" (body req) with
     | Some user =>
         if strict_eq_string (prop user "kind") "plus#person"
         then responses (trace_of (post_signin req st)) = [SendStatus 200]
              /\ session (state_of (post_signin req st)) =
                 obj_set (session st) "user" user
              /\ lookup "user" (session (state_of (post_signin req st))) =
                 Some user
              /\ strings (state_of (post_signin req st)) = strings st
         else responses (trace_of (post_signin req st)) = [SendStatus 401]
              /\ state_of (post_signin req st) = st
     | None =>
         responses (trace_of (post_signin req st)) = [SendStatus 401]
         /\ state_of (post_signin req st) = st
     end.
Proof.
  rewrite post_signin_run. cbv zeta.
  destruct (lookup "user" (body req)) as [user|]; simpl or_undef.
  - destruct (strict_eq_string (prop user "kind") "plus#person") eqn:Hkind.
    + rewrite (person_is_truthy _ Hkind). simpl.
      repeat split. apply lookup_obj_set.
    + rewrite andb_false_r. simpl. auto.
  - simpl. auto.
Qed.

(* ----------------------------------------------------------------- *)
(** *** The route guard *)

Lemma validate_route (h : handler) (req : request) (st : state) :
  route [validate denial] h req st =
  if truthy (session_user st req) then h req st
  else ([reply_event denial], st, Ok tt).
Proof.
  unfold route, validate, bind, get_state, ret, emit.
  fold (session_user st req).
  destruct (truthy (session_user st req)); simpl; [|reflexivity].
  now destruct (h req st) as [[t st'] r].
Qed.

(** C3.  Behind [validate()], a request whose session has no (truthy)
    [user] is answered by the guard alone: the outcome is the guard's
    reply, with the state untouched, whatever the handler behind it is, so
    no handler has run; that reply is a redirect or a status, never a
    rendered page.  A request with an identity gets exactly what the
    handler does.  [GET /apply] and [GET /thanks] are two such routes. *)
Theorem guard_blocks_anonymous (req : request) (st : state) :
  session_user st req = or_undef (lookup "user" (session st))
  /\ (forall h : handler,
        route [validate denial] h req st =
        if truthy (session_user st req) then h req st
        else ([reply_event denial], st, Ok tt))
  /\ GET_apply denial req st =
     (if truthy (session_user st req) then get_apply req st
      else ([reply_event denial], st, Ok tt))
  /\ GET_thanks denial req st =
     (if truthy (session_user st req) then get_thanks req st
      else ([reply_event denial], st, Ok tt))
  /\ is_response (reply_event denial) = true
  /\ (forall view context, reply_event denial <> Render view context).
Proof.
  repeat split; try (intros; apply validate_route).
  - now destruct denial.
  - intros view context. now destruct denial.
Qed.

(* ----------------------------------------------------------------- *)
(** *** Identities without an e-mail address *)

Lemma first_email_missing (user : value) :
  nullish (prop user "emails") = true
  \/ (exists named, prop user "emails" = VArr [] named) ->
  first_email user = Throw TypeError.
Proof.
  unfold first_email, get_member. destruct (nullish user); [reflexivity|].
  simpl. intros [H|[named H]]; rewrite H; reflexivity.
Qed.

Lemma calm_bind {A B : Type} (m : M A) (k : A -> M B) :
  calm m -> (forall a, calm (k a)) -> calm (bind m k).
Proof.
  intros Hm Hk st. unfold bind.
  destruct (Hm st) as (st1 & [a|e] & ->); [|eauto].
  destruct (Hk a st1) as (st2 & r & ->). eauto.
Qed.

Lemma calm_get_state : calm get_state.
Proof. intros st. unfold get_state. eauto. Qed.

Lemma calm_put_state (s : state) : calm (put_state s).
Proof. intros st. unfold put_state. eauto. Qed.

Lemma calm_lift {A : Type} (r : result A) : calm (lift r).
Proof. intros st. unfold lift. eauto. Qed.

Create HintDb calm.
#[local] Hint Resolve calm_get_state calm_put_state calm_lift : calm.

Lemma calm_prefill_target (f : string) : calm (prefill_target f).
Proof.
  unfold prefill_target. repeat (apply calm_bind; [|intros ?]);
    auto with calm.
Qed.

Lemma calm_prefill (f : string) (x : value) : calm (prefill f x).
Proof.
  unfold prefill. repeat (apply calm_bind; [|intros ?]); auto with calm.
Qed.

Lemma aborts_after {A B : Type} (m : M A) (k : A -> M B) :
  calm m -> (forall a, aborts (k a)) -> aborts (bind m k).
Proof.
  intros Hm Hk st. unfold bind.
  destruct (Hm st) as (st1 & [a|[]] & ->); [|eauto].
  destruct (Hk a st1) as (st2 & ->). eauto.
Qed.

Lemma aborts_at {A B : Type} (k : A -> M B) :
  aborts (bind (lift (Throw TypeError)) k).
Proof. intros st. unfold bind, lift. eauto. Qed.

Lemma get_apply_throws (req : request) (st : state) :
  first_email (session_user st req) = Throw TypeError ->
  exists st', get_apply req st = ([], st', Throw TypeError).
Proof.
  intros He. unfold get_apply.
  unfold bind at 1, get_state at 1.
  match goal with
  | |- exists _, match ?m st with _ => _ end = _ =>
      assert (aborts m) as Habort
  end.
  { apply aborts_after; [apply calm_prefill_target|intros _].
    apply aborts_after; [apply calm_lift|intros displayName].
    apply aborts_after; [apply calm_prefill|intros _].
    apply aborts_after; [apply calm_prefill_target|intros _].
    rewrite He. apply aborts_at. }
  destruct (Habort st) as (st' & ->). eauto.
Qed.

(** C10.  With an identity whose [emails] is absent ([undefined], [null])
    or an empty array, [user.emails[0].value] throws a [TypeError]: both
    [GET /apply], behind its guard, and the [POST /apply] handler end in
    the error-handling middleware, which logs the stack and answers 500
    'Internal Server Error'; no page is rendered, no move is started. *)
Theorem missing_email_answers_500
  (reports : list Async.report) (failure : value)
  (req : request) (st : state) (user : value) :
  lookup "user" (session st) = Some user ->
  truthy user = true ->
  nullish (prop user "emails") = true
  \/ (exists named, prop user "emails" = VArr [] named) ->
  first_email user = Throw TypeError
  /\ (exists st',
        express (GET_apply denial) req st =
        ([ConsoleErrorStack TypeError; Send 500 "Internal Server Error"],
         st'))
  /\ express (post_apply title dirname cfg reports failure) req st =
     ([ConsoleErrorStack TypeError; Send 500 "Internal Server Error"], st).
Proof.
  intros Hsession Htruthy Hemails.
  pose proof (first_email_missing _ Hemails) as He.
  assert (session_user st req = user) as Huser
    by (rewrite session_user_lookup, Hsession; reflexivity).
  split; [assumption|]. split.
  - destruct (get_apply_throws req st) as [st' Hthrow];
      [now rewrite Huser|].
    exists st'. unfold express, GET_apply.
    now rewrite validate_route, Huser, Htruthy, Hthrow.
  - unfold express. rewrite post_apply_run, Huser, He. reflexivity.
Qed.

(* ----------------------------------------------------------------- *)
(** *** Start-up *)

(** C7, as the code has it.  If [GA_TOKEN], [SLACK_WEBHOOK_URL] or
    [GOOGLE_CLIENTID] is unset (or empty), the start-up script logs a
    message naming a missing variable and exits with status 1; it never
    gets to [app.listen]. *)
Theorem missing_credential_aborts
  (env : environment) (yml : value) (k : string) :
  In k ["GA_TOKEN"; "SLACK_WEBHOOK_URL"; "GOOGLE_CLIENTID"] ->
  truthy (getenv env k) = false ->
  (exists message,
     startup env yml = ([ConsoleError (VStr message); ProcessExit 1],
                        Exited 1))
  /\ serves (startup env yml) = false.
Proof.
  intros Hk Hmissing. unfold startup. cbn [gaToken slackUrl clientId].
  destruct (truthy (getenv env "GA_TOKEN")) eqn:Hga; simpl;
    [|split; [eexists|]; reflexivity].
  destruct (truthy (getenv env "SLACK_WEBHOOK_URL")) eqn:Hslack; simpl;
    [|split; [eexists|]; reflexivity].
  destruct (truthy (getenv env "GOOGLE_CLIENTID")) eqn:Hclient; simpl;
    [|split; [eexists|]; reflexivity].
  simpl in Hk. destruct Hk as [<-|[<-|[<-|[]]]]; congruence.
Qed.

(* ----------------------------------------------------------------- *)
(** *** The process-wide strings *)

(** Every handler but [GET /apply] leaves [strings] as it found them. *)
Lemma siblings_keep_strings
  (reports : list Async.report) (failure : value)
  (req : request) (st : state) :
  strings (state_of (get_root req st)) = strings st
  /\ strings (state_of (get_tos req st)) = strings st
  /\ strings (state_of (get_signin req st)) = strings st
  /\ strings (state_of (post_signin req st)) = strings st
  /\ strings (state_of (get_thanks req st)) = strings st
  /\ strings
       (state_of (post_apply title dirname cfg reports failure req st)) =
     strings st.
Proof.
  assert (forall view k,
            strings (state_of (render_with view k req st)) = strings st)
    as Hrender.
  { intros view k.
    unfold render_with, bind, get_state, lift, emit, state_of.
    now destruct (get_member (strings st) k). }
  repeat split; try apply Hrender.
  - unfold get_signin, bind, get_state, lift, emit, state_of.
    destruct (truthy (session_user st req)); [reflexivity|].
    now destruct (get_member (strings st) "signin").
  - rewrite post_signin_run. cbv zeta.
    now destruct (truthy (or_undef (lookup "user" (body req)))
                  && strict_eq_string
                       (prop (or_undef (lookup "user" (body req))) "kind")
                       "plus#person").
  - rewrite post_apply_run.
    now destruct (first_email (session_user st req)).
Qed.

End Properties.

(* ================================================================= *)
(** ** The properties at work *)

(** C8.  [GET /apply] writes into the process-wide [strings]: after Jane's
    request they are no longer what the start-up script left, and hold her
    name and address; the next visitor's request, which fails for lack of
    an e-mail address, overwrites the name and leaves her address where
    every later request finds it. *)
Theorem get_apply_rewrites_strings :
  let jane_was_here :=
    state_of (GET_apply RedirectToSignin Sample.plain_get
                (Sample.signed_in Sample.jane)) in
  let then_nomail :=
    state_of (GET_apply RedirectToSignin Sample.plain_get
                {| session := session (Sample.signed_in Sample.nomail);
                   strings := strings jane_was_here |}) in
  strings jane_was_here <> strings (Sample.signed_in Sample.jane)
  /\ Dotty.get (strings jane_was_here)
       ["apply"; "form"; "fullName"; "value"] = VStr "Jane Doe"
  /\ Dotty.get (strings jane_was_here)
       ["apply"; "form"; "email"; "value"] = VStr "jane@x.com"
  /\ Dotty.get (strings then_nomail)
       ["apply"; "form"; "fullName"; "value"] = VStr "No Mail"
  /\ Dotty.get (strings then_nomail)
       ["apply"; "form"; "email"; "value"] = VStr "jane@x.com".
Proof.
  cbv zeta. repeat split; try reflexivity.
  vm_compute. discriminate.
Qed.

(** C4, as stated, fails: with two uploads of which the first to report
    has failed, the 500 goes out while the other move is still under way;
    its report comes after the response. *)
Lemma failed_move_is_not_awaited :
  wf_reports (List.length (files Sample.submission))
    [(0, VStr "EACCES"); (1, VUndef)] = true
  /\ existsb failed [(0, VStr "EACCES"); (1, VUndef)] = true
  /\ trace_of
       (post_apply Sample.title "/srv" Sample.cfg
          [(0, VStr "EACCES"); (1, VUndef)] VUndef
          Sample.submission (Sample.signed_in Sample.jane)) =
     [received Sample.jane (VStr "jane@x.com");
      Mv "/tmp/a1" "/srv/public/images/resume-cv.pdf";
      Mv "/tmp/a2" "/srv/public/images/photo-me.png";
      MvReport 0 (VStr "EACCES");
      ConsoleError (VStr "EACCES");
      SendStatus 500;
      MvReport 1 VUndef]
  /\ joined
       (trace_of
          (post_apply Sample.title "/srv" Sample.cfg
             [(0, VStr "EACCES"); (1, VUndef)] VUndef
             Sample.submission (Sample.signed_in Sample.jane))) = false.
Proof. repeat split. Qed.

(** C7, as stated, fails: without [SLACK_CHANNEL] the server starts and
    listens. *)
Lemma startup_without_channel :
  Sample.env_without_channel "SLACK_CHANNEL" = None
  /\ fst (startup Sample.env_without_channel Sample.yml) =
     [Listen (VNum 3000)]
  /\ serves (startup Sample.env_without_channel Sample.yml) = true.
Proof. repeat split. Qed.

(** Jane's application, both moves succeeding: the chat message lists her
    two text fields, then her two files. *)
Lemma notification_fields_cover_submission_witness :
  notification_fields
    (announcement Sample.title Sample.cfg (originUri Sample.submission)
       Sample.jane (body Sample.submission) (files Sample.submission)) =
    VArr (map (text_entry Sample.title)
            (filter non_comment (body Sample.submission))
            ++ map (file_entry (originUri Sample.submission))
                 (files Sample.submission)) []
  /\ List.length
       (map (text_entry Sample.title)
          (filter non_comment (body Sample.submission))
          ++ map (file_entry (originUri Sample.submission))
               (files Sample.submission)) =
     List.length (filter non_comment (body Sample.submission))
     + List.length (files Sample.submission).
Proof.
  apply (notification_fields_cover_submission Sample.title "/srv" Sample.cfg
           [(0, VUndef); (1, VUndef)] VUndef
           Sample.submission (Sample.signed_in Sample.jane)
           (slackUrl Sample.cfg)).
  vm_compute. repeat (first [left; reflexivity | right]).
Defined.

(** The same application: the icon is at [http://example.comimages/bot.png]. *)
Lemma icon_url_lacks_separator_witness :
  prop
    (announcement Sample.title Sample.cfg (originUri Sample.submission)
       Sample.jane (body Sample.submission) (files Sample.submission))
    "icon_url" =
    VStr ((protocol Sample.submission ++ "://"
             ++ opt_to_string (host Sample.submission))
            ++ "images/bot.png")
  /\ String.get (String.length (originUri Sample.submission))
       (originUri Sample.submission ++ "images/bot.png") = Some "i"%char
  /\ Forall
       (fun entry =>
          uri (snd entry) =
          Some (originUri Sample.submission ++ "/images/" ++ fst entry
                  ++ "-" ++ name (snd entry))%string)
       (fst (relocate "/srv" (originUri Sample.submission)
               (files Sample.submission))).
Proof.
  apply (icon_url_lacks_separator Sample.title "/srv" Sample.cfg
           [(1, VNull); (0, VUndef)] (VStr "ETIMEDOUT")
           Sample.submission (Sample.signed_in Sample.jane)
           (slackUrl Sample.cfg)).
  vm_compute. repeat (first [left; reflexivity | right]).
Defined.

(** An upload and a descriptor with the same field and stored name. *)
Lemma relocation_is_deterministic_witness :
  relocate "/srv" "http://example.com" [("resume", Scenario.first_upload)] =
    (map (fun entry =>
            (fst entry,
             assign_upload (snd entry)
               (public_path "/srv" (fst entry) (name (snd entry)))
               (public_uri "http://example.com" (fst entry)
                  (name (snd entry)))))
         [("resume", Scenario.first_upload)],
     map (fun entry =>
            (path (snd entry),
             public_path "/srv" (fst entry) (name (snd entry))))
         [("resume", Scenario.first_upload)])
  /\ map snd
       (snd (relocate "/srv" "https://join.example.org"
               [("resume", Scenario.first_upload_again)])) =
     map snd
       (snd (relocate "/srv" "http://example.com"
               [("resume", Scenario.first_upload)]))
  /\ nodup string_dec
       (map snd
          (snd (relocate "/srv" "http://example.com"
                  [("resume", Scenario.first_upload)]))
          ++ map snd
               (snd (relocate "/srv" "https://join.example.org"
                       [("resume", Scenario.first_upload_again)]))) =
     nodup string_dec
       (map snd
          (snd (relocate "/srv" "http://example.com"
                  [("resume", Scenario.first_upload)]))).
Proof.
  apply (relocation_is_deterministic "/srv"
           "http://example.com" "https://join.example.org"
           [("resume", Scenario.first_upload)]
           [("resume", Scenario.first_upload_again)]).
  reflexivity.
Defined.

(** C5, as stated, fails: the same file, [cv.pdf], uploaded twice in the
    same field goes to two different destinations, neither of which is
    built from its original filename; the second upload does not overwrite
    the first. *)
Lemma same_file_twice_accumulates :
  fieldname Scenario.first_upload = fieldname Scenario.second_upload
  /\ originalname Scenario.first_upload =
     originalname Scenario.second_upload
  /\ map snd
       (snd (relocate "/srv" "http://example.com"
               [("resume", Scenario.first_upload)])) =
     ["/srv/public/images/resume-4bb9e3f0a1c25d7e8f6a0b1c2d3e4f50.pdf"]
  /\ map snd
       (snd (relocate "/srv" "http://example.com"
               [("resume", Scenario.second_upload)])) =
     ["/srv/public/images/resume-0f3c9a7b6e5d4c3b2a1908f7e6d5c4b3.pdf"]
  /\ map snd
       (snd (relocate "/srv" "http://example.com"
               [("resume", Scenario.first_upload)])) <>
     [public_path "/srv" "resume" (originalname Scenario.first_upload)]
  /\ List.length
       (nodup string_dec
          (map snd
             (snd (relocate "/srv" "http://example.com"
                     [("resume", Scenario.first_upload)]))
             ++ map snd
                  (snd (relocate "/srv" "http://example.com"
                          [("resume", Scenario.second_upload)])))) = 2.
Proof.
  repeat split; try reflexivity.
  vm_compute. discriminate.
Qed.

(** Jane's application when the move of the first file fails first. *)
Lemma failed_move_answers_500_witness :
  exists pre i err post email,
    [(0, VStr "EACCES"); (1, VUndef)] = pre ++ (i, err) :: post
    /\ forallb (fun r => negb (failed r)) pre = true
    /\ truthy err = true
    /\ trace_of
         (post_apply Sample.title "/srv" Sample.cfg
            [(0, VStr "EACCES"); (1, VUndef)] VUndef
            Sample.submission (Sample.signed_in Sample.jane)) =
       received
         (session_user (Sample.signed_in Sample.jane) Sample.submission)
         email
       :: map Async.start
            (snd (relocate "/srv" (originUri Sample.submission)
                    (files Sample.submission)))
       ++ map report_event pre
       ++ MvReport i err :: ConsoleError err :: SendStatus 500
       :: map report_event post
    /\ responses
         (trace_of
            (post_apply Sample.title "/srv" Sample.cfg
               [(0, VStr "EACCES"); (1, VUndef)] VUndef
               Sample.submission (Sample.signed_in Sample.jane))) =
       [SendStatus 500]
    /\ filter is_slack
         (trace_of
            (post_apply Sample.title "/srv" Sample.cfg
               [(0, VStr "EACCES"); (1, VUndef)] VUndef
               Sample.submission (Sample.signed_in Sample.jane))) = []
    /\ filter is_mv
         (trace_of
            (post_apply Sample.title "/srv" Sample.cfg
               [(0, VStr "EACCES"); (1, VUndef)] VUndef
               Sample.submission (Sample.signed_in Sample.jane))) =
       map Async.start
         (snd (relocate "/srv" (originUri Sample.submission)
                 (files Sample.submission))).
Proof.
  apply (failed_move_answers_500 Sample.title "/srv" Sample.cfg
           [(0, VStr "EACCES"); (1, VUndef)] VUndef
           Sample.submission (Sample.signed_in Sample.jane));
    reflexivity.
Defined.


(** A visitor whose identity came without an e-mail address. *)
Lemma missing_email_answers_500_witness :
  first_email Sample.nomail = Throw TypeError
  /\ (exists st',
        express (GET_apply RedirectToSignin) Sample.plain_get
          (Sample.signed_in Sample.nomail) =
        ([ConsoleErrorStack TypeError; Send 500 "Internal Server Error"],
         st'))
  /\ express
       (post_apply Sample.title "/srv" Sample.cfg [(0, VUndef)] VUndef)
       Sample.plain_get (Sample.signed_in Sample.nomail) =
     ([ConsoleErrorStack TypeError; Send 500 "Internal Server Error"],
      Sample.signed_in Sample.nomail).
Proof.
  apply (missing_email_answers_500 Sample.title "/srv" RedirectToSignin
           Sample.cfg [(0, VUndef)] VUndef
           Sample.plain_get (Sample.signed_in Sample.nomail) Sample.nomail).
  - reflexivity.
  - reflexivity.
  - right. exists []. reflexivity.
Defined.

(** An environment without [GOOGLE_CLIENTID]. *)
Lemma missing_credential_aborts_witness :
  (exists message,
     startup Sample.env_without_client Sample.yml =
     ([ConsoleError (VStr message); ProcessExit 1], Exited 1))
  /\ serves (startup Sample.env_without_client Sample.yml) = false.
Proof.
  apply (missing_credential_aborts Sample.env_without_client Sample.yml
           "GOOGLE_CLIENTID").
  - simpl. right. right. left. reflexivity.
  - reflexivity.
Defined.

(* ================================================================= *)
(** ** Further properties of the handlers *)

Section Further.

Variable title : string -> string.
Variable dirname : string.
Variable rateLimit : middleware.
Variable denial : guard_reply.
Variable cfg : config.

(* ----------------------------------------------------------------- *)
(** *** Objects *)

Lemma lookup_set (o : object) (k k' : string) (v : value) :
  lookup k (obj_set o k' v) = if k' =? k then Some v else lookup k o.
Proof.
  induction o as [|[k0 v0] rest IH]; simpl.
  - reflexivity.
  - destruct (k0 =? k') eqn:E0; simpl.
    + apply String.eqb_eq in E0. subst k0.
      destruct (k' =? k); reflexivity.
    + rewrite IH. destruct (k0 =? k) eqn:E1; [|reflexivity].
      destruct (k' =? k) eqn:E2; [|reflexivity].
      apply String.eqb_eq in E1, E2. apply String.eqb_neq in E0.
      congruence.
Qed.

Lemma obj_set_twice (o : object) (k : string) (v v' : value) :
  obj_set (obj_set o k v) k v' = obj_set o k v'.
Proof.
  induction o as [|[k0 v0] rest IH]; simpl.
  - now rewrite String.eqb_refl.
  - destruct (k0 =? k) eqn:E; simpl.
    + now rewrite String.eqb_refl.
    + now rewrite E, IH.
Qed.

Lemma lookup_app (a b : object) (k : string) :
  lookup k (a ++ b) =
  match lookup k a with
  | Some v => Some v
  | None => lookup k b
  end.
Proof.
  induction a as [|[k0 v0] rest IH]; simpl; [reflexivity|].
  now destruct (k0 =? k).
Qed.

Lemma lookup_absent (o : object) (k : string) :
  ~ In k (keys o) -> lookup k o = None.
Proof.
  induction o as [|[k0 v0] rest IH]; simpl; intros Hout; [reflexivity|].
  destruct (k0 =? k) eqn:E.
  - apply String.eqb_eq in E. exfalso. apply Hout. now left.
  - apply IH. intros Hin. apply Hout. now right.
Qed.

(** In a well-formed object it does not matter from which end a property
    is looked for. *)
Lemma lookup_rev (o : object) (k : string) :
  NoDup (keys o) -> lookup k (rev o) = lookup k o.
Proof.
  induction o as [|[k0 v0] rest IH]; simpl; intros Hnd; [reflexivity|].
  inversion Hnd as [|? ? Hout Hrest]; subst.
  rewrite lookup_app, IH by assumption. simpl.
  destruct (k0 =? k) eqn:E; [|now destruct (lookup k rest)].
  apply String.eqb_eq in E. subst k0.
  now rewrite lookup_absent.
Qed.

(** [_.assign]: the source's properties win, the last of them first; the
    target keeps the others. *)
Lemma assign_from (src : object) (k : string) :
  forall target,
    lookup k
      (fold_left (fun o kv => obj_set o (fst kv) (snd kv)) src target) =
    match lookup k (rev src) with
    | Some v => Some v
    | None => lookup k target
    end.
Proof.
  induction src as [|[k0 v0] rest IH]; intros target; simpl;
    [reflexivity|].
  rewrite IH, lookup_app, lookup_set. simpl.
  destruct (lookup k (rev rest)); [reflexivity|].
  now destruct (k0 =? k).
Qed.

Lemma assign_lookup (target : object) (source : value) (k : string) :
  lookup k (Lodash.assign target source) =
  match lookup k (rev (Lodash.own_props source)) with
  | Some v => Some v
  | None => lookup k target
  end.
Proof. apply assign_from. Qed.

(* ----------------------------------------------------------------- *)
(** *** The pages *)

Lemma render_with_run (view k : string) (req : request) (st : state) :
  render_with view k req st =
  if nullish (strings st) then ([], st, Throw TypeError)
  else ([Render view
           (VObj (Lodash.assign (Lodash.assign [] (prop (strings st) k))
                    (session_user st req)))],
        st, Ok tt).
Proof.
  unfold render_with, bind, get_state, lift, emit, get_member.
  now destruct (nullish (strings st)).
Qed.

(** X1.  [GET /], [GET /tos] and [GET /thanks] render their view with
    [_.assign({}, strings.k, user)]: whatever property the signed-in
    identity has, the page gets the identity's value of it, also where
    [strings.k] has one of the same name; every other property is the one
    of [strings.k].  The state is left alone. *)
Theorem render_overlays_identity
  (view k : string) (req : request) (st : state)
  (user : object) (p : string) :
  nullish (strings st) = false ->
  session_user st req = VObj user ->
  NoDup (keys user) ->
  exists context,
    render_with view k req st = ([Render view (VObj context)], st, Ok tt)
    /\ lookup p context =
       match lookup p user with
       | Some v => Some v
       | None => lookup p (Lodash.assign [] (prop (strings st) k))
       end.
Proof.
  intros Hstrings Huser Hnd. rewrite render_with_run, Hstrings, Huser.
  eexists. split; [reflexivity|].
  rewrite assign_lookup. simpl Lodash.own_props.
  now rewrite lookup_rev.
Qed.

(* ----------------------------------------------------------------- *)
(** *** Signing in, and what follows *)

(** X2.  Once [POST /signin] has accepted an identity, the same client is
    let through by the guard, whatever the handler behind it, and
    [GET /signin] no longer shows the sign-in page but redirects to
    [/apply]. *)
Theorem signin_opens_guard
  (req req' : request) (st : state) (user : value) (h : handler) :
  lookup "user" (body req) = Some user ->
  strict_eq_string (prop user "kind") "plus#person" = true ->
  session_user (state_of (post_signin req st)) req' = user
  /\ route [validate denial] h req' (state_of (post_signin req st)) =
     h req' (state_of (post_signin req st))
  /\ get_signin req' (state_of (post_signin req st)) =
     ([Redirect "/apply"], state_of (post_signin req st), Ok tt).
Proof.
  intros Hbody Hkind.
  pose proof (person_is_truthy _ Hkind) as Htruthy.
  assert (session_user (state_of (post_signin req st)) req' = user) as Hu.
  { rewrite post_signin_run, Hbody. cbv zeta. simpl or_undef.
    rewrite Hkind, Htruthy. unfold state_of. simpl.
    rewrite session_user_lookup. simpl. now rewrite lookup_obj_set. }
  repeat split; [assumption| |].
  - now rewrite validate_route, Hu, Htruthy.
  - unfold get_signin, bind, get_state, emit.
    rewrite Hu, Htruthy. reflexivity.
Qed.

(** X3.  [POST /signin] touches nothing in the session but [user]; signing
    in again replaces the identity instead of adding to the session, so
    that two sign-ins leave what the second alone would have left. *)
Theorem signin_replaces_identity
  (req req' : request) (st : state) (k : string) :
  k <> "user" ->
  lookup k (session (state_of (post_signin req st))) = lookup k (session st)
  /\ (forall user',
        lookup "user" (body req') = Some user' ->
        strict_eq_string (prop user' "kind") "plus#person" = true ->
        state_of (post_signin req' (state_of (post_signin req st))) =
        state_of (post_signin req' st)).
Proof.
  intros Hk. split.
  - rewrite post_signin_run. cbv zeta.
    destruct (truthy (or_undef (lookup "user" (body req)))
              && strict_eq_string
                   (prop (or_undef (lookup "user" (body req))) "kind")
                   "plus#person"); unfold state_of; simpl; [|reflexivity].
    rewrite lookup_set. destruct ("user" =? k) eqn:E; [|reflexivity].
    apply String.eqb_eq in E. congruence.
  - intros user' Hbody Hkind.
    pose proof (person_is_truthy _ Hkind) as Htruthy.
    rewrite !(post_signin_run req'), Hbody. cbv zeta. simpl or_undef.
    rewrite Hkind, Htruthy. unfold state_of. simpl.
    rewrite post_signin_run. cbv zeta.
    destruct (truthy (or_undef (lookup "user" (body req)))
              && strict_eq_string
                   (prop (or_undef (lookup "user" (body req))) "kind")
                   "plus#person"); simpl; [|reflexivity].
    now rewrite obj_set_twice.
Qed.

(* ----------------------------------------------------------------- *)
(** *** Start-up, again *)

Lemma extend_object (s : value) (k : string) (more : object) :
  is_object s = true ->
  exists s', extend s k more = Ok s' /\ is_object s' = true.
Proof.
  destruct s; try discriminate; intros _; unfold extend, get_member; simpl.
  - eauto.
  - destruct (index_of_string k); eauto.
Qed.

Lemma extend_scalar (s : value) (k : string) (more : object) :
  is_object s = false -> extend s k more = Throw TypeError.
Proof. destruct s; try discriminate; reflexivity. Qed.

Lemma extend_strings_object (c : config) (yml : value) :
  if is_object yml
  then exists s', extend_strings c yml = Ok s' /\ is_object s' = true
  else extend_strings c yml = Throw TypeError.
Proof.
  unfold extend_strings. destruct (is_object yml) eqn:Hyml.
  - destruct (extend_object yml "main" [("gaToken", gaToken c)] Hyml)
      as (s1 & -> & H1). simpl.
    destruct (extend_object s1 "signin"
                [("gaToken", gaToken c); ("clientId", clientId c)] H1)
      as (s2 & -> & H2). simpl.
    apply extend_object, H2.
  - now rewrite extend_scalar.
Qed.

(** X4.  How the start-up script ends.  If one of [GA_TOKEN],
    [SLACK_WEBHOOK_URL], [GOOGLE_CLIENTID] is unset or empty, the first such
    one, in that order, is named in the one message logged before
    [process.exit(1)].  Otherwise the script listens, on [PORT] or on 3000,
    exactly when what [strings.yml] holds is an object; when it holds a
    scalar or nothing, extending the strings throws and the script dies
    before listening. *)
Theorem startup_outcome (env : environment) (yml : value) :
  match first_missing env with
  | Some k =>
      startup env yml =
      exitWithError ("Please set " ++ k ++ " environment variable.")
  | None =>
      if is_object yml
      then exists c strings',
          startup env yml =
          ([Listen (js_or (getenv env "PORT") (VNum 3000))],
           Serving c strings')
          /\ is_object strings' = true
          /\ channel c = getenv env "SLACK_CHANNEL"
          /\ botName c = js_or (getenv env "SLACK_BOT_NAME") (VStr "SIR")
      else startup env yml = ([], Crashed TypeError)
  end.
Proof.
  unfold first_missing, required, startup. cbn [find gaToken slackUrl clientId].
  destruct (truthy (getenv env "GA_TOKEN")); simpl; [|reflexivity].
  destruct (truthy (getenv env "SLACK_WEBHOOK_URL")); simpl; [|reflexivity].
  destruct (truthy (getenv env "GOOGLE_CLIENTID")); simpl; [|reflexivity].
  match goal with
  | |- context [extend_strings ?c yml] =>
      pose proof (extend_strings_object c yml) as H
  end.
  destruct (is_object yml).
  - destruct H as (s' & -> & Hs'). eauto 10.
  - now rewrite H.
Qed.

Lemma extend_plain (o : object) (k : string) (more : object) :
  extend (VObj o) k more =
  Ok (VObj
        (obj_set o k
           (VObj (Lodash.assign
                    (Lodash.assign []
                       (VObj (("title", prop (VObj o) "title") :: more)))
                    (prop (VObj o) k))))).
Proof. reflexivity. Qed.

(** Comparisons of two property names that are both literals. *)
Ltac decide_keys :=
  repeat match goal with
         | |- context [String ?c ?s =? String ?c' ?s'] =>
             let b := eval vm_compute in (String c s =? String c' s') in
             change (String c s =? String c' s') with b
         end;
  cbv iota.

(** X5.  In the strings the server starts with, each of the pages [main],
    [signin] and [apply] has the properties [strings.yml] gave it,
    unchanged; [title], [gaToken] (and, for [signin], [clientId]) are
    filled in from the top-level [title] and from the environment only
    where the page has no property of that name.  Every other top-level
    entry of [strings.yml] is as it was. *)
Theorem startup_keeps_page_strings
  (env : environment) (o : object) (t : list event)
  (c : config) (strings' : value) (page k : string) :
  startup env (VObj o) = (t, Serving c strings') ->
  (In page pages ->
   prop (prop strings' page) k =
   match lookup k (rev (Lodash.own_props (prop (VObj o) page))) with
   | Some v => v
   | None => or_undef (lookup k (page_defaults env (VObj o) page))
   end)
  /\ (~ In page pages -> prop strings' page = prop (VObj o) page).
Proof.
  unfold startup. cbn [gaToken slackUrl clientId].
  destruct (truthy (getenv env "GA_TOKEN")); cbn [negb];
    [|discriminate].
  destruct (truthy (getenv env "SLACK_WEBHOOK_URL")); cbn [negb];
    [|discriminate].
  destruct (truthy (getenv env "GOOGLE_CLIENTID")); cbn [negb];
    [|discriminate].
  unfold extend_strings. rewrite extend_plain. cbn [bind_result].
  rewrite extend_plain. cbn [bind_result]. rewrite extend_plain.
  cbn [gaToken clientId].
  intros H. inversion H; subst; clear H.
  assert (forall d old,
            NoDup (keys d) ->
            or_undef
              (lookup k (Lodash.assign (Lodash.assign [] (VObj d)) old)) =
            match lookup k (rev (Lodash.own_props old)) with
            | Some v => v
            | None => or_undef (lookup k d)
            end) as Hpage.
  { intros d old Hd. rewrite !assign_lookup.
    cbn [Lodash.own_props]. rewrite (lookup_rev d) by assumption.
    destruct (lookup k (rev (Lodash.own_props old))); [reflexivity|].
    now destruct (lookup k d). }
  split.
  - intros Hin. unfold page_defaults. cbn [prop]. rewrite !lookup_set.
    simpl in Hin. destruct Hin as [<-|[<-|[<-|[]]]];
      decide_keys; rewrite ?lookup_set; decide_keys; cbn [or_undef];
      apply Hpage; repeat constructor; simpl; intros Hin;
      repeat (destruct Hin as [Hin|Hin]; try discriminate Hin);
      try contradiction.
  - intros Hout. cbn [prop]. rewrite !lookup_set.
    destruct ("apply" =? page) eqn:E1;
      [apply String.eqb_eq in E1; subst; exfalso; apply Hout; simpl; auto|].
    destruct ("signin" =? page) eqn:E2;
      [apply String.eqb_eq in E2; subst; exfalso; apply Hout; simpl; auto|].
    destruct ("main" =? page) eqn:E3;
      [apply String.eqb_eq in E3; subst; exfalso; apply Hout; simpl; auto|].
    reflexivity.
Qed.

(* ----------------------------------------------------------------- *)
(** *** Destinations *)

Lemma append_cancel (s a b : string) : (s ++ a = s ++ b)%string -> a = b.
Proof.
  induction s as [|c s IH]; simpl; intros H; [assumption|].
  inversion H. auto.
Qed.

(** A hyphen-free prefix ends at the first hyphen. *)
Lemma hyphen_split (f1 f2 n1 n2 : string) :
  hyphen_free f1 = true ->
  hyphen_free f2 = true ->
  (f1 ++ "-" ++ n1 = f2 ++ "-" ++ n2)%string ->
  f1 = f2 /\ n1 = n2.
Proof.
  revert f2. induction f1 as [|c1 f1 IH]; intros [|c2 f2] H1 H2 Heq;
    simpl in *.
  - inversion Heq. auto.
  - inversion Heq; subst. discriminate.
  - inversion Heq; subst. discriminate.
  - inversion Heq; subst.
    apply andb_true_iff in H1 as [_ H1]. apply andb_true_iff in H2 as [_ H2].
    destruct (IH f2 H1 H2) as [-> ->]; auto.
Qed.

Lemma public_path_inj (f1 f2 n1 n2 : string) :
  hyphen_free f1 = true ->
  hyphen_free f2 = true ->
  public_path dirname f1 n1 = public_path dirname f2 n2 ->
  f1 = f2 /\ n1 = n2.
Proof.
  unfold public_path. intros H1 H2 Heq.
  apply append_cancel, (append_cancel "/public/images/") in Heq.
  now apply hyphen_split.
Qed.

(** X6.  The uploads of one submission, whose field names differ from one
    another, are moved to destinations that differ from one another,
    whatever their filenames, as long as no field name has a hyphen in
    it: no upload overwrites another of the same submission. *)
Theorem destinations_do_not_collide
  (origin : string) (files : list (string * upload)) :
  NoDup (map fst files) ->
  forallb (fun entry => hyphen_free (fst entry)) files = true ->
  NoDup (map snd (snd (relocate dirname origin files))).
Proof.
  intros Hnd Hfree. rewrite relocate_maps. simpl. rewrite map_map.
  induction files as [|[field f] rest IH]; simpl; constructor.
  - simpl in Hnd, Hfree. inversion Hnd as [|? ? Hout _]; subst.
    apply andb_true_iff in Hfree as [Hfield Hrest].
    intros Hin. apply in_map_iff in Hin as ([field' f'] & Heq & Hin').
    simpl in Heq. rewrite forallb_forall in Hrest.
    apply public_path_inj in Heq as [-> _];
      [|exact (Hrest _ Hin')|assumption].
    apply Hout, in_map_iff. now exists (field, f').
  - simpl in Hnd, Hfree. inversion Hnd; subst.
    apply andb_true_iff in Hfree as [_ Hrest]. auto.
Qed.

(* ----------------------------------------------------------------- *)
(** *** The order of the layers *)

Lemma validate_first (rest : list middleware) (h : handler)
  (req : request) (st : state) :
  route (validate denial :: rest) h req st =
  if truthy (session_user st req) then route rest h req st
  else ([reply_event denial], st, Ok tt).
Proof.
  cbn [route]. unfold validate, bind, get_state, ret, emit.
  fold (session_user st req).
  destruct (truthy (session_user st req)); simpl; [|reflexivity].
  now destruct (route rest h req st) as [[t st'] r].
Qed.

(** On [POST /apply] the guard stands before the rate limiter: a
    submission without an identity is turned away by the guard with the
    state untouched, whatever the limiter is, so the limiter has not seen
    it; with an identity the request is the limiter's, and then the
    handler's. *)
Lemma guard_stands_before_limiter
  (reports : list Async.report) (failure : value)
  (req : request) (st : state) :
  POST_apply title dirname rateLimit denial cfg reports failure req st =
  if truthy (session_user st req)
  then route [rateLimit] (post_apply title dirname cfg reports failure)
         req st
  else ([reply_event denial], st, Ok tt).
Proof. unfold POST_apply. apply validate_first. Qed.

(* ----------------------------------------------------------------- *)
(** *** One response per request *)

Lemma calm_silent {A : Type} (m : M A) : calm m -> silent m.
Proof.
  intros Hm st. destruct (Hm st) as (st' & r & ->). reflexivity.
Qed.

Lemma silent_emit (e : event) : is_response e = false -> silent (emit e).
Proof.
  intros He st. unfold emit, trace_of, responses. simpl. now rewrite He.
Qed.

Lemma answers_emit (e : event) : is_response e = true -> answers (emit e).
Proof.
  intros He st. unfold emit, trace_of, result_of, responses. simpl.
  now rewrite He.
Qed.

Lemma answers_after {A B : Type} (m : M A) (k : A -> M B) :
  silent m -> (forall a, answers (k a)) -> answers (bind m k).
Proof.
  intros Hm Hk st. specialize (Hm st). unfold bind.
  destruct (m st) as [[t st1] [a|e]]; unfold trace_of, result_of in *;
    simpl in *; [|assumption].
  specialize (Hk a st1).
  destruct (k a st1) as [[t' st2] r]; unfold trace_of, result_of in *;
    simpl in *.
  unfold responses in *. rewrite filter_app, Hm. assumption.
Qed.

Lemma answers_render_with (view k : string) (req : request) :
  answers (render_with view k req).
Proof.
  intros st. rewrite render_with_run.
  now destruct (nullish (strings st)).
Qed.

Lemma answers_get_signin (req : request) : answers (get_signin req).
Proof.
  unfold get_signin. apply answers_after;
    [apply calm_silent, calm_get_state|intros st].
  destruct (truthy (session_user st req)); [now apply answers_emit|].
  apply answers_after; [apply calm_silent, calm_lift|intros page].
  now apply answers_emit.
Qed.

Lemma answers_post_signin (req : request) : answers (post_signin req).
Proof.
  intros st. rewrite post_signin_run. cbv zeta.
  now destruct (truthy (or_undef (lookup "user" (body req)))
                && strict_eq_string
                     (prop (or_undef (lookup "user" (body req))) "kind")
                     "plus#person").
Qed.

Lemma answers_get_apply (req : request) : answers (get_apply req).
Proof.
  unfold get_apply.
  apply answers_after; [apply calm_silent, calm_get_state|intros st].
  apply answers_after;
    [apply calm_silent, calm_prefill_target|intros _].
  apply answers_after; [apply calm_silent, calm_lift|intros displayName].
  apply answers_after; [apply calm_silent, calm_prefill|intros _].
  apply answers_after;
    [apply calm_silent, calm_prefill_target|intros _].
  apply answers_after; [apply calm_silent, calm_lift|intros email].
  apply answers_after; [apply calm_silent, calm_prefill|intros _].
  apply answers_after; [apply calm_silent, calm_get_state|intros st'].
  apply answers_after; [apply calm_silent, calm_lift|intros page].
  now apply answers_emit.
Qed.

Lemma answers_guarded (h : handler) (req : request) :
  answers (h req) -> answers (route [validate denial] h req).
Proof.
  intros Hh st. rewrite validate_route.
  destruct (truthy (session_user st req)); [apply Hh|].
  now destruct denial.
Qed.

(** Under Express, a computation that answers once when it returns and
    not at all when it throws makes for exactly one response. *)
Lemma express_answers (h : handler) (req : request) (st : state) :
  answers (h req) ->
  List.length (responses (fst (express h req st))) = 1.
Proof.
  intros Hh. specialize (Hh st). unfold express.
  destruct (h req st) as [[t st'] [a|e]]; unfold trace_of, result_of in *;
    simpl in *; [assumption|].
  unfold responses in *. rewrite filter_app, Hh. reflexivity.
Qed.

(** X7.  Every request to [GET /], [GET /tos], [GET /signin],
    [GET /thanks] and [GET /apply], and every one the [POST /signin]
    handler receives, gets one response and one only: the page, redirect
    or status of the handler or the guard, or, when the handler throws,
    the 500 of the error-handling middleware. *)
Theorem every_request_is_answered_once (req : request) (st : state) :
  Forall
    (fun h : handler =>
       List.length (responses (fst (express h req st))) = 1)
    [GET_root; GET_tos; GET_signin; post_signin;
     GET_thanks denial; GET_apply denial].
Proof.
  repeat constructor; apply express_answers.
  - apply answers_render_with.
  - apply answers_render_with.
  - apply answers_get_signin.
  - apply answers_post_signin.
  - apply answers_guarded, answers_render_with.
  - apply answers_guarded, answers_get_apply.
Qed.

(* ----------------------------------------------------------------- *)
(** *** The response to a submission *)

Lemma all_succeed (reports : list Async.report) :
  existsb failed reports = false ->
  forallb (fun r => negb (failed r)) reports = true.
Proof.
  induction reports as [|r rest IH]; simpl; [reflexivity|].
  intros H. apply orb_false_iff in H as [-> H]. simpl. auto.
Qed.

Lemma settle_pending (callback : value -> list event) :
  forall reports n,
    forallb (fun r => negb (failed r)) reports = true ->
    List.length reports < n ->
    Async.settle n false reports callback = map report_event reports.
Proof.
  induction reports as [|[i err] rest IH]; intros n Hok Hlen;
    [reflexivity|].
  simpl in Hok, Hlen. apply andb_true_iff in Hok as [Herr Hok].
  unfold failed in Herr; simpl in Herr. apply negb_true_iff in Herr.
  cbn [Async.settle]. rewrite Herr.
  destruct n as [|[|m]]; [lia|lia|].
  simpl Nat.sub. simpl Nat.eqb. cbv iota.
  rewrite IH by (auto; lia). reflexivity.
Qed.

Lemma parallel_failure (tasks : list Async.job)
  (pre post : list Async.report) (i : nat) (err : value)
  (callback : value -> list event) :
  truthy err = true ->
  forallb (fun r => negb (failed r)) pre = true ->
  List.length pre < List.length tasks ->
  Async.parallel tasks (pre ++ (i, err) :: post) callback =
  map Async.start tasks ++ map report_event pre
  ++ MvReport i err :: callback err ++ map report_event post.
Proof.
  intros Herr Hpre Hlen.
  rewrite parallel_started by (clear - Hlen; lia).
  now rewrite settle_failure.
Qed.

Lemma parallel_success (tasks : list Async.job)
  (reports : list Async.report) (callback : value -> list event) :
  forallb (fun r => negb (failed r)) reports = true ->
  List.length reports = List.length tasks ->
  Async.parallel tasks reports callback =
  map Async.start tasks ++ map report_event reports ++ callback VNull.
Proof.
  intros Hok Hlen. destruct tasks as [|j jobs].
  - destruct reports; [reflexivity|discriminate].
  - rewrite parallel_started by apply Nat.lt_0_succ.
    cbn [List.length] in *.
    now rewrite (settle_success callback reports (List.length jobs)).
Qed.

Lemma parallel_pending (tasks : list Async.job)
  (reports : list Async.report) (callback : value -> list event) :
  forallb (fun r => negb (failed r)) reports = true ->
  List.length reports < List.length tasks ->
  Async.parallel tasks reports callback =
  map Async.start tasks ++ map report_event reports.
Proof.
  intros Hok Hlen.
  rewrite parallel_started by (clear - Hlen; lia).
  now rewrite settle_pending.
Qed.

Lemma moved_responds (req : request) (user : value) (failure err : value) :
  nullish user = false ->
  responses
    (moved title cfg req user
       (map (relocated dirname (originUri req)) (files req)) failure err) =
  if truthy err then [SendStatus 500] else [Redirect "/thanks"].
Proof.
  intros Hn. rewrite moved_value by assumption.
  destruct (truthy err); [reflexivity|].
  unfold slack. now destruct (truthy failure).
Qed.

Lemma moved_is_quiet (req : request) (user : value) (failure err : value) :
  nullish user = false ->
  truthy err = true ->
  filter is_slack
    (moved title cfg req user
       (map (relocated dirname (originUri req)) (files req)) failure err) =
  [].
Proof.
  intros Hn Herr. rewrite moved_value by assumption. now rewrite Herr.
Qed.

(** The [once] latch: however the moves report, the callback's events
    are in the trace at most once. *)
Lemma settle_responds_once (callback : value -> list event) :
  forall reports n called,
    responses (Async.settle n called reports callback) = []
    \/ exists err,
         responses (Async.settle n called reports callback) =
         responses (callback err).
Proof.
  unfold responses.
  induction reports as [|[i err] rest IH]; intros n called;
    [now left|].
  assert (forall m,
            filter is_response (Async.settle m true rest callback) = [])
    as Hspent.
  { intros m. rewrite settle_called. now apply filter_reports. }
  cbn [Async.settle filter is_response].
  destruct (truthy err).
  - destruct called.
    + left. apply Hspent.
    + right. exists err. now rewrite filter_app, Hspent, app_nil_r.
  - destruct called.
    + left. apply Hspent.
    + destruct (n - 1 =? 0)%nat; [|apply IH].
      right. exists VNull. now rewrite filter_app, Hspent, app_nil_r.
Qed.

(** X8.  Whatever the moves report, in whatever order, reporting twice or
    not at all, the client of [POST /apply] never gets a second response:
    the 500 of a thrown exception, the 500 of a failed move and the
    redirect exclude one another. *)
Theorem submission_is_answered_at_most_once
  (reports : list Async.report) (failure : value)
  (req : request) (st : state) :
  List.length
    (responses
       (fst (express (post_apply title dirname cfg reports failure) req st)))
  <= 1.
Proof.
  unfold express. rewrite post_apply_run.
  destruct (first_email (session_user st req)) as [email|e] eqn:He;
    [|simpl; auto].
  apply first_email_ok in He. cbn [fst].
  unfold responses at 1. cbn [filter received is_response].
  unfold Async.parallel. rewrite filter_app, filter_starts by reflexivity.
  cbn [app].
  destruct (map (rename_job dirname) (files req)) as [|j jobs].
  - fold (responses
            (moved title cfg req (session_user st req)
               (map (relocated dirname (originUri req)) (files req))
               failure VNull)).
    rewrite moved_responds by assumption. simpl. auto.
  - match goal with
    | |- context [Async.settle ?n ?c reports ?cb] =>
        destruct (settle_responds_once cb reports n c) as [H|[err H]]
    end; unfold responses in H; rewrite H; [simpl; auto|].
    fold (responses
            (moved title cfg req (session_user st req)
               (map (relocated dirname (originUri req)) (files req))
               failure err)).
    rewrite moved_responds by assumption.
    destruct (truthy err); simpl; auto.
Qed.

(** X9.  When every started move has reported, once, the client of
    [POST /apply] has exactly one response, and which one is decided by
    this alone: the 500 of the error-handling middleware if the handler
    threw, else the 500 of the handler if some move failed, else the
    redirect to [/thanks]. *)
Theorem submission_response_is_decided
  (reports : list Async.report) (failure : value)
  (req : request) (st : state) :
  wf_reports (List.length (files req)) reports = true ->
  List.length reports = List.length (files req) ->
  responses
    (fst (express (post_apply title dirname cfg reports failure) req st)) =
  match first_email (session_user st req) with
  | Throw _ => [Send 500 "Internal Server Error"]
  | Ok _ =>
      if existsb failed reports then [SendStatus 500]
      else [Redirect "/thanks"]
  end.
Proof.
  intros Hwf Hlen. unfold express. rewrite post_apply_run.
  destruct (first_email (session_user st req)) as [email|e] eqn:He;
    [|reflexivity].
  apply first_email_ok in He. cbn [fst].
  unfold responses at 1. cbn [filter received is_response].
  destruct (existsb failed reports) eqn:Hfail.
  - destruct (first_failure _ Hfail)
      as (pre & i & err & post & -> & Hpre & Herr).
    apply wf_reports_length in Hwf. rewrite length_app in Hwf.
    simpl in Hwf.
    assert (List.length pre
            < List.length (map (rename_job dirname) (files req))) as Hlt
      by (rewrite length_map; clear - Hwf; lia).
    rewrite parallel_failure by assumption.
    rewrite !filter_app, filter_starts, filter_reports by reflexivity.
    cbn [filter is_response app]. rewrite filter_app.
    rewrite (filter_reports is_response post) by reflexivity.
    fold (responses
            (moved title cfg req (session_user st req)
               (map (relocated dirname (originUri req)) (files req))
               failure err)).
    rewrite moved_responds, Herr by assumption. reflexivity.
  - rewrite parallel_success;
      [|now apply all_succeed|now rewrite length_map].
    rewrite !filter_app, filter_starts, filter_reports by reflexivity.
    fold (responses
            (moved title cfg req (session_user st req)
               (map (relocated dirname (originUri req)) (files req))
               failure VNull)).
    now rewrite moved_responds.
Qed.

(** X10.  There is no timeout on the moves: while they succeed one after
    the other and one of them has yet to report, the client has no
    response and the chat no message. *)
Theorem pending_move_withholds_response
  (reports : list Async.report) (failure : value)
  (req : request) (st : state) :
  result_of (post_apply title dirname cfg reports failure req st) = Ok tt ->
  forallb (fun r => negb (failed r)) reports = true ->
  List.length reports < List.length (files req) ->
  responses
    (trace_of (post_apply title dirname cfg reports failure req st)) = []
  /\ filter is_slack
       (trace_of (post_apply title dirname cfg reports failure req st)) = [].
Proof.
  intros Hrun Hok Hlen. rewrite post_apply_run in *.
  destruct (first_email (session_user st req)) as [email|e];
    [|discriminate].
  unfold trace_of. cbn [fst].
  rewrite parallel_pending; [|assumption|now rewrite length_map].
  unfold responses. cbn [filter received is_response is_slack].
  rewrite !filter_app.
  rewrite !filter_starts, !filter_reports by reflexivity.
  split; reflexivity.
Qed.

(* ----------------------------------------------------------------- *)
(** *** The application form *)

Lemma plain_step (v : value) (k : string) (rest : list string) :
  plain v (k :: rest) = true ->
  exists o, v = VObj o /\ plain (or_undef (lookup k o)) rest = true.
Proof. destruct v; try discriminate. simpl. eauto. Qed.

Lemma plain_object (v : value) : plain v [] = true -> exists o, v = VObj o.
Proof. destruct v; try discriminate. eauto. Qed.

(** What [strings.apply.form.f.value = x] makes of well-formed strings. *)
Lemma prefill_run (f : string) (x : value) (st : state)
  (s a form o : object) :
  strings st = VObj s ->
  or_undef (lookup "apply" s) = VObj a ->
  or_undef (lookup "form" a) = VObj form ->
  or_undef (lookup f form) = VObj o ->
  prefill f x st =
  ([],
   {| session := session st;
      strings :=
        VObj (obj_set s "apply"
                (VObj (obj_set a "form"
                         (VObj (obj_set form f
                                  (VObj (obj_set o "value" x))))))) |},
   Ok tt).
Proof.
  intros Hs Ha Hform Ho.
  unfold prefill, bind, get_state, lift, put_state. rewrite Hs.
  cbn [set_path get_member nullish prop bind_result set_member].
  rewrite Ha.
  cbn [set_path get_member nullish prop bind_result set_member].
  rewrite Hform.
  cbn [set_path get_member nullish prop bind_result set_member].
  rewrite Ho. reflexivity.
Qed.

Lemma prefill_target_run (f : string) (st : state) (s a form : object) :
  strings st = VObj s ->
  or_undef (lookup "apply" s) = VObj a ->
  or_undef (lookup "form" a) = VObj form ->
  prefill_target f st = ([], st, Ok (or_undef (lookup f form))).
Proof.
  intros Hs Ha Hform.
  unfold prefill_target, bind, get_state, lift. rewrite Hs.
  cbn [get_member nullish prop]. rewrite Ha.
  cbn [get_member nullish prop]. rewrite Hform. reflexivity.
Qed.

Lemma get_step (o : object) (k k' : string) (rest : list string) :
  Dotty.get (VObj o) (k :: k' :: rest) =
  Dotty.get (or_undef (lookup k o)) (k' :: rest).
Proof. reflexivity. Qed.

Lemma get_last (o : object) (k : string) :
  Dotty.get (VObj o) [k] = or_undef (lookup k o).
Proof. reflexivity. Qed.

(** X11.  With strings in which [apply.form.fullName] and
    [apply.form.email] are objects, and an identity that has a first
    e-mail address, [GET /apply] renders the [apply] view, and has by then
    written the identity's [displayName] and that address into the shared
    strings, as the [value] of the two form fields; the page is given
    [strings.apply] so filled in, overlaid with the identity.  The session
    is as it was. *)
Theorem get_apply_prefills (req : request) (st : state) (email : value) :
  plain (strings st) ["apply"; "form"; "fullName"] = true ->
  plain (strings st) ["apply"; "form"; "email"] = true ->
  first_email (session_user st req) = Ok email ->
  exists strings',
    get_apply req st =
    ([Render "apply"
        (VObj (Lodash.assign (Lodash.assign [] (prop strings' "apply"))
                 (session_user st req)))],
     {| session := session st; strings := strings' |},
     Ok tt)
    /\ Dotty.get strings' ["apply"; "form"; "fullName"; "value"] =
       prop (session_user st req) "displayName"
    /\ Dotty.get strings' ["apply"; "form"; "email"; "value"] = email.
Proof.
  intros Hname Hmail He.
  apply plain_step in Hname as (s & Hs & Hname).
  apply plain_step in Hname as (a & Ha & Hname).
  apply plain_step in Hname as (form & Hform & Hname).
  apply plain_object in Hname as (fn & Hfn).
  rewrite Hs in Hmail. cbn [plain] in Hmail.
  rewrite Ha in Hmail. cbn [plain] in Hmail.
  rewrite Hform in Hmail. cbn [plain] in Hmail.
  apply plain_object in Hmail as (em & Hem).
  pose proof (first_email_ok _ _ He) as Hn.
  set (user := session_user st req) in *.
  set (x := prop user "displayName").
  set (form1 := obj_set form "fullName" (VObj (obj_set fn "value" x))).
  set (a1 := obj_set a "form" (VObj form1)).
  set (s1 := obj_set s "apply" (VObj a1)).
  set (st1 := {| session := session st; strings := VObj s1 |}).
  assert (prefill "fullName" x st = ([], st1, Ok tt)) as Hfirst
    by (now apply prefill_run).
  assert (or_undef (lookup "apply" s1) = VObj a1) as Ha1
    by (unfold s1; now rewrite lookup_obj_set).
  assert (or_undef (lookup "form" a1) = VObj form1) as Hform1
    by (unfold a1; now rewrite lookup_obj_set).
  assert (or_undef (lookup "email" form1) = VObj em) as Hem1
    by (unfold form1; rewrite lookup_set; decide_keys; assumption).
  set (form2 := obj_set form1 "email" (VObj (obj_set em "value" email))).
  set (s2 := obj_set s1 "apply" (VObj (obj_set a1 "form" (VObj form2)))).
  assert (prefill "email" email st1 =
          ([], {| session := session st; strings := VObj s2 |}, Ok tt))
    as Hsecond by (now apply (prefill_run "email" email st1 s1 a1 form1 em)).
  exists (VObj s2). split; [|split].
  - unfold get_apply, bind at 1 2 3 4 5 6 7 8 9, get_state.
    fold user.
    rewrite (prefill_target_run "fullName" st s a form) by assumption.
    unfold lift, get_member. rewrite Hn. fold x. cbn iota beta.
    rewrite Hfirst.
    rewrite (prefill_target_run "email" st1 s1 a1 form1) by
      (try reflexivity; assumption).
    rewrite He. rewrite Hsecond. cbn [strings nullish]. reflexivity.
  - unfold s2. rewrite get_step, lookup_obj_set. cbn [or_undef].
    rewrite get_step, lookup_obj_set. cbn [or_undef].
    unfold form2. rewrite get_step, lookup_set. decide_keys.
    unfold form1. rewrite lookup_obj_set. cbn [or_undef].
    now rewrite get_last, lookup_obj_set.
  - unfold s2. rewrite get_step, lookup_obj_set. cbn [or_undef].
    rewrite get_step, lookup_obj_set. cbn [or_undef].
    unfold form2. rewrite get_step, lookup_obj_set. cbn [or_undef].
    now rewrite get_last, lookup_obj_set.
Qed.

(* ----------------------------------------------------------------- *)
(** *** What the handlers keep *)

Lemma keeps_bind {A B : Type} (I : state -> Prop) (m : M A) (k : A -> M B)
  (Q : A -> Prop) (Q' : B -> Prop) :
  keeps I m Q -> (forall a, Q a -> keeps I (k a) Q') ->
  keeps I (bind m k) Q'.
Proof.
  intros Hm Hk st HI. destruct (Hm st HI) as [HI1 HQ].
  unfold bind, state_of, result_of in *.
  destruct (m st) as [[t st1] [a|e]]; simpl in *.
  - destruct (Hk a (HQ a eq_refl) st1 HI1) as [HI2 HQ'].
    unfold state_of, result_of in *.
    destruct (k a st1) as [[t' st2] r]. simpl in *. auto.
  - split; [assumption|discriminate].
Qed.

Lemma keeps_get_state (I : state -> Prop) : keeps I get_state I.
Proof.
  intros st HI. unfold get_state, state_of, result_of. simpl.
  split; [assumption|]. intros a H. now inversion H; subst.
Qed.

Lemma keeps_lift {A : Type} (I : state -> Prop) (r : result A) :
  keeps I (lift r) (fun a => r = Ok a).
Proof. intros st HI. unfold lift, state_of, result_of. simpl. auto. Qed.

Lemma keeps_emit (I : state -> Prop) (e : event) :
  keeps I (emit e) (fun _ => True).
Proof. intros st HI. unfold emit, state_of, result_of. simpl. auto. Qed.

Lemma keeps_put_state (I : state -> Prop) (s : state) :
  I s -> keeps I (put_state s) (fun _ => True).
Proof. intros Hs st HI. unfold put_state, state_of, result_of. simpl. auto. Qed.

Lemma keeps_anything {A : Type} (I : state -> Prop) (m : M A)
  (Q : A -> Prop) :
  keeps I m Q -> keeps I m (fun _ => True).
Proof. intros Hm st HI. destruct (Hm st HI). auto. Qed.

Lemma set_member_object (v v' : value) (k : string) (x : value) :
  set_member v k x = Ok v' -> is_object v' = true.
Proof.
  destruct v; try discriminate; simpl.
  - intros H. now inversion H.
  - destruct (index_of_string k); intros H; now inversion H.
Qed.

(** A write along a path leaves an object where it found one. *)
Lemma set_path_object (v v' : value) (k : string) (rest : list string)
  (x : value) :
  set_path v (k :: rest) x = Ok v' -> is_object v' = true.
Proof.
  destruct rest as [|k' rest]; simpl.
  - apply set_member_object.
  - destruct (get_member v k) as [sub|e]; [|discriminate]. simpl.
    destruct (match rest with
              | [] => set_member sub k' x
              | _ :: _ =>
                  sub0 <~ get_member sub k' ;;
                  sub' <~ set_path sub0 rest x ;; set_member sub k' sub'
              end) as [sub'|e]; [|discriminate].
    simpl. apply set_member_object.
Qed.

Lemma keeps_prefill (s0 : object) (f : string) (x : value) :
  keeps (settled s0) (prefill f x) (fun _ => True).
Proof.
  unfold prefill.
  eapply keeps_bind; [apply keeps_get_state|intros st [Hs Ho]].
  eapply keeps_bind; [apply keeps_lift|intros strings' Hset].
  apply keeps_put_state. split; [assumption|].
  simpl. eapply set_path_object, Hset.
Qed.

Lemma keeps_prefill_target (s0 : object) (f : string) :
  keeps (settled s0) (prefill_target f) (fun _ => True).
Proof.
  unfold prefill_target.
  eapply keeps_bind; [apply keeps_get_state|intros st _].
  eapply keeps_bind; [apply keeps_lift|intros a _].
  eapply keeps_bind; [apply keeps_lift|intros form _].
  eapply keeps_anything, keeps_lift.
Qed.

Lemma keeps_get_apply (s0 : object) (req : request) :
  keeps (settled s0) (get_apply req) (fun _ => True).
Proof.
  unfold get_apply.
  eapply keeps_bind; [apply keeps_get_state|intros st _].
  eapply keeps_bind; [apply keeps_prefill_target|intros _ _].
  eapply keeps_bind; [apply keeps_lift|intros displayName _].
  eapply keeps_bind; [apply keeps_prefill|intros _ _].
  eapply keeps_bind; [apply keeps_prefill_target|intros _ _].
  eapply keeps_bind; [apply keeps_lift|intros email _].
  eapply keeps_bind; [apply keeps_prefill|intros _ _].
  eapply keeps_bind; [apply keeps_get_state|intros st' _].
  eapply keeps_bind; [apply keeps_lift|intros page _].
  apply keeps_emit.
Qed.

Lemma bystander_validate : bystander (validate denial).
Proof.
  intros req st. unfold validate, bind, get_state, ret, emit, state_of.
  now destruct (truthy (Dotty.get (req_value st req) ["session"; "user"])).
Qed.

(** Behind layers that keep out of the state, the state a route leaves is
    the one it found or the one its handler leaves. *)
Lemma route_state (mws : list middleware) (h : handler)
  (req : request) (st : state) :
  Forall bystander mws ->
  state_of (route mws h req st) = st
  \/ state_of (route mws h req st) = state_of (h req st).
Proof.
  induction mws as [|mw rest IH]; intros Hmws; [now right|].
  inversion Hmws as [|? ? Hmw Hrest]; subst. cbn [route].
  specialize (Hmw req st). unfold bind, state_of in *.
  destruct (mw req st) as [[t st1] [[|]|e]]; simpl in *; subst st1.
  - destruct (IH Hrest) as [H|H];
      destruct (route rest h req st) as [[t' st2] r]; simpl in *; auto.
  - now left.
  - now left.
Qed.

Lemma express_state (h : handler) (req : request) (st : state) :
  snd (express h req st) = state_of (h req st).
Proof.
  unfold express, state_of. now destruct (h req st) as [[t st'] [a|e]].
Qed.








(* ----------------------------------------------------------------- *)
(** *** Over any sequence of requests *)

Lemma session_of_stored (sid sid' : string) (s : object)
  (store : list (string * object)) :
  session_of sid (store_session sid' s store) =
  if sid' =? sid then s else session_of sid store.
Proof.
  induction store as [|[sid0 s0] rest IH]; simpl.
  - reflexivity.
  - destruct (sid0 =? sid') eqn:E0; simpl.
    + apply String.eqb_eq in E0. subst sid0.
      destruct (sid' =? sid); reflexivity.
    + rewrite IH. destruct (sid0 =? sid) eqn:E1; [|reflexivity].
      destruct (sid' =? sid) eqn:E2; [|reflexivity].
      apply String.eqb_eq in E1, E2. apply String.eqb_neq in E0.
      congruence.
Qed.





Lemma get_apply_session (req : request) (st : state) :
  session (state_of (get_apply req st)) = session st.
Proof.
  pose proof (keeps_get_apply (session st) req st) as Hkeep.
  destruct (is_object (strings st)) eqn:Ho.
  - now destruct (Hkeep (conj eq_refl Ho)) as [[Hs _] _].
  - clear Hkeep.
    unfold get_apply, prefill_target, bind, get_state, lift, get_member,
      state_of.
    destruct (strings st); try discriminate; reflexivity.
Qed.

(** The one write to the session: [req.session.user = user] in
    [POST /signin], with a [user] of the accepted kind. *)
Lemma route_of_session (ep : endpoint) (req : request) (st : state) :
  bystander rateLimit ->
  session
    (state_of (route_of title dirname rateLimit denial cfg ep req st)) =
  session st
  \/ (ep = PostSignin
      /\ exists user,
           lookup "user" (body req) = Some user
           /\ strict_eq_string (prop user "kind") "plus#person" = true
           /\ session
                (state_of
                   (route_of title dirname rateLimit denial cfg ep req st)) =
              obj_set (session st) "user" user).
Proof.
  intros Hlimit.
  assert (Forall bystander [validate denial; rateLimit]) as Hboth
    by (repeat constructor; [apply bystander_validate|assumption]).
  assert (Forall bystander [validate denial]) as Hguard
    by (repeat constructor; apply bystander_validate).
  assert (Forall bystander [rateLimit]) as Hlim
    by (repeat constructor; assumption).
  assert (forall view k,
            session (state_of (render_with view k req st)) = session st)
    as Hrender.
  { intros view k. rewrite render_with_run.
    now destruct (nullish (strings st)). }
  destruct ep as [| | | | | |reports failure]; cbn [route_of].
  - left. apply Hrender.
  - left. apply Hrender.
  - left. unfold GET_signin. cbn [route].
    unfold get_signin, bind, get_state, lift, emit, state_of.
    destruct (truthy (session_user st req)); [reflexivity|].
    now destruct (get_member (strings st) "signin").
  - unfold POST_signin.
    destruct (route_state [rateLimit] post_signin req st Hlim)
      as [-> | ->]; [now left|].
    rewrite post_signin_run. cbv zeta.
    destruct (lookup "user" (body req)) as [user|]; [|now left].
    cbn [or_undef].
    destruct (strict_eq_string (prop user "kind") "plus#person") eqn:Hkind.
    + rewrite (person_is_truthy _ Hkind). right. split; [reflexivity|].
      exists user. auto.
    + rewrite andb_false_r. now left.
  - left. unfold GET_thanks.
    destruct (route_state [validate denial] get_thanks req st Hguard)
      as [-> | ->]; [reflexivity|apply Hrender].
  - left. unfold GET_apply.
    destruct (route_state [validate denial] get_apply req st Hguard)
      as [-> | ->]; [reflexivity|apply get_apply_session].
  - left. unfold POST_apply.
    destruct (route_state [validate denial; rateLimit]
                (post_apply title dirname cfg reports failure) req st Hboth)
      as [-> | ->]; [reflexivity|].
    rewrite post_apply_run.
    now destruct (first_email (session_user st req)).
Qed.

(** Where the identity in a session comes from. *)
Lemma identity_origin (sid : string) :
  bystander rateLimit ->
  forall (calls : list (string * endpoint * request)) (srv : server),
    lookup "user"
      (session_of sid
         (sessions (run title dirname rateLimit denial cfg calls srv))) =
    lookup "user" (session_of sid (sessions srv))
    \/ exists req user,
         In (sid, PostSignin, req) calls
         /\ lookup "user" (body req) = Some user
         /\ strict_eq_string (prop user "kind") "plus#person" = true
         /\ lookup "user"
              (session_of sid
                 (sessions
                    (run title dirname rateLimit denial cfg calls srv))) =
            Some user.
Proof.
  intros Hlimit.
  induction calls as [|[[sid' ep] req] rest IH]; intros srv; [now left|].
  cbn [run].
  destruct (IH (snd (serve title dirname rateLimit denial cfg
                       sid' ep req srv)))
    as [Hsame|(req' & user & Hin & Hbody & Hkind & Hafter)].
  - rewrite Hsame. clear Hsame IH. unfold serve. cbn [snd sessions].
    rewrite session_of_stored, express_state.
    destruct (sid' =? sid) eqn:E; [|now left].
    apply String.eqb_eq in E. subst sid'.
    destruct (route_of_session ep req
                {| session := session_of sid (sessions srv);
                   strings := shared srv |} Hlimit)
      as [Hs|(-> & user & Hbody & Hkind & Hs)];
      rewrite Hs; cbn [session]; [now left|].
    right. exists req, user. rewrite lookup_obj_set.
    repeat split; try assumption. now left.
  - right. exists req', user. repeat split; try assumption. now right.
Qed.

(** X13.  After any sequence of requests, by whatever clients, the
    identity in a client's session is the one that was there before, or
    the [user] of the body of one of that client's own [POST /signin]
    requests in the sequence, of kind ['plus#person']: nothing else writes
    [session.user], and no route removes it.  So a client that is signed
    in stays signed in, and the guard keeps letting it through.  (This
    takes a rate limiter that does not write to the session or the
    strings.) *)
Theorem signed_in_stays_signed_in
  (calls : list (string * endpoint * request)) (srv : server)
  (sid : string) :
  bystander rateLimit ->
  truthy (or_undef (lookup "user" (session_of sid (sessions srv)))) = true ->
  truthy
    (or_undef
       (lookup "user"
          (session_of sid
             (sessions
                (run title dirname rateLimit denial cfg calls srv))))) =
  true
  /\ (lookup "user"
        (session_of sid
           (sessions (run title dirname rateLimit denial cfg calls srv))) =
      lookup "user" (session_of sid (sessions srv))
      \/ exists req user,
           In (sid, PostSignin, req) calls
           /\ lookup "user" (body req) = Some user
           /\ strict_eq_string (prop user "kind") "plus#person" = true
           /\ lookup "user"
                (session_of sid
                   (sessions
                      (run title dirname rateLimit denial cfg calls srv))) =
              Some user).
Proof.
  intros Hlimit Huser.
  pose proof (identity_origin sid Hlimit calls srv) as Horigin.
  split; [|assumption].
  destruct Horigin as [->|(req & user & _ & _ & Hkind & ->)];
    [assumption|].
  cbn [or_undef]. now apply person_is_truthy.
Qed.

End Further.

(* ================================================================= *)
(** ** The further properties at work *)

(** Jane on the landing page: the page gets her [displayName]. *)
Lemma render_overlays_identity_witness :
  exists context,
    render_with "main" "main" Sample.plain_get
      (Sample.signed_in Sample.jane) =
    ([Render "main" (VObj context)], Sample.signed_in Sample.jane, Ok tt)
    /\ lookup "displayName" context =
       match
         lookup "displayName"
           [("kind", VStr "plus#person");
            ("displayName", VStr "Jane Doe");
            ("emails", VArr [VObj [("value", VStr "jane@x.com")]] []);
            ("url", VStr "https://plus.example/jane")]
       with
       | Some v => Some v
       | None =>
           lookup "displayName"
             (Lodash.assign []
                (prop (strings (Sample.signed_in Sample.jane)) "main"))
       end.
Proof.
  apply (render_overlays_identity "main" "main" Sample.plain_get
           (Sample.signed_in Sample.jane)).
  - reflexivity.
  - reflexivity.
  - repeat constructor; simpl; intuition discriminate.
Defined.

(** Bob signs in, then asks for the thank-you page. *)
Lemma signin_opens_guard_witness :
  session_user
    (state_of (post_signin Scenario.bob_signs_in Sample.anonymous))
    Sample.plain_get = Sample.nomail
  /\ route [validate RedirectToSignin] get_thanks Sample.plain_get
       (state_of (post_signin Scenario.bob_signs_in Sample.anonymous)) =
     get_thanks Sample.plain_get
       (state_of (post_signin Scenario.bob_signs_in Sample.anonymous))
  /\ get_signin Sample.plain_get
       (state_of (post_signin Scenario.bob_signs_in Sample.anonymous)) =
     ([Redirect "/apply"],
      state_of (post_signin Scenario.bob_signs_in Sample.anonymous), Ok tt).
Proof.
  apply (signin_opens_guard RedirectToSignin Scenario.bob_signs_in
           Sample.plain_get Sample.anonymous Sample.nomail get_thanks);
    reflexivity.
Defined.

(** Jane's session also holds a cart; Bob's identity then replaces hers. *)
Lemma signin_replaces_identity_witness :
  lookup "cart"
    (session
       (state_of
          (post_signin Scenario.bob_signs_in
             {| session := [("user", Sample.jane); ("cart", VNum 3)];
                strings := Sample.yml |}))) =
  lookup "cart" [("user", Sample.jane); ("cart", VNum 3)]
  /\ (forall user',
        lookup "user" (body Scenario.bob_signs_in) = Some user' ->
        strict_eq_string (prop user' "kind") "plus#person" = true ->
        state_of
          (post_signin Scenario.bob_signs_in
             (state_of
                (post_signin Scenario.bob_signs_in
                   {| session := [("user", Sample.jane); ("cart", VNum 3)];
                      strings := Sample.yml |}))) =
        state_of
          (post_signin Scenario.bob_signs_in
             {| session := [("user", Sample.jane); ("cart", VNum 3)];
                strings := Sample.yml |})).
Proof.
  apply (signin_replaces_identity Scenario.bob_signs_in
           Scenario.bob_signs_in
           {| session := [("user", Sample.jane); ("cart", VNum 3)];
              strings := Sample.yml |} "cart").
  discriminate.
Defined.

(** The sample strings: [main] keeps its [lead] and gains the token. *)
Lemma startup_keeps_page_strings_witness :
  (In "main" pages ->
   prop (prop Scenario.strings "main") "gaToken" =
   match
     lookup "gaToken"
       (rev (Lodash.own_props
               (prop (VObj [("title", VStr "Join");
                            ("main", VObj [("lead", VStr "Welcome")]);
                            ("signin", VObj []);
                            ("apply",
                             VObj [("form",
                                    VObj [("fullName",
                                           VObj [("label", VStr "Name")]);
                                          ("email",
                                           VObj [("label",
                                                  VStr "E-mail")])])])])
                  "main")))
   with
   | Some v => v
   | None =>
       or_undef
         (lookup "gaToken"
            (page_defaults Sample.env_without_channel
               (VObj [("title", VStr "Join");
                      ("main", VObj [("lead", VStr "Welcome")]);
                      ("signin", VObj []);
                      ("apply",
                       VObj [("form",
                              VObj [("fullName",
                                     VObj [("label", VStr "Name")]);
                                    ("email",
                                     VObj [("label", VStr "E-mail")])])])])
               "main"))
   end)
  /\ (~ In "main" pages ->
      prop Scenario.strings "main" =
      prop (VObj [("title", VStr "Join");
                  ("main", VObj [("lead", VStr "Welcome")]);
                  ("signin", VObj []);
                  ("apply",
                   VObj [("form",
                          VObj [("fullName", VObj [("label", VStr "Name")]);
                                ("email",
                                 VObj [("label", VStr "E-mail")])])])])
        "main").
Proof.
  apply (startup_keeps_page_strings Sample.env_without_channel
           [("title", VStr "Join");
            ("main", VObj [("lead", VStr "Welcome")]);
            ("signin", VObj []);
            ("apply",
             VObj [("form",
                    VObj [("fullName", VObj [("label", VStr "Name")]);
                          ("email", VObj [("label", VStr "E-mail")])])])]
           [Listen (VNum 3000)] Scenario.cfg Scenario.strings
           "main" "gaToken").
  reflexivity.
Defined.

(** Jane's two files do not collide. *)
Lemma destinations_do_not_collide_witness :
  NoDup
    (map snd
       (snd (relocate "/srv" "http://example.com"
               (files Sample.submission)))).
Proof.
  apply (destinations_do_not_collide "/srv" "http://example.com"
           (files Sample.submission)).
  - repeat constructor; simpl; intuition discriminate.
  - reflexivity.
Defined.

(** Jane's application, the second file moved, the first not. *)
Lemma submission_response_is_decided_witness :
  responses
    (fst (express
            (post_apply Sample.title "/srv" Sample.cfg
               [(1, VUndef); (0, VStr "EACCES")] VUndef)
            Sample.submission (Sample.signed_in Sample.jane))) =
  match
    first_email
      (session_user (Sample.signed_in Sample.jane) Sample.submission)
  with
  | Throw _ => [Send 500 "Internal Server Error"]
  | Ok _ =>
      if existsb failed [(1, VUndef); (0, VStr "EACCES")]
      then [SendStatus 500]
      else [Redirect "/thanks"]
  end.
Proof.
  apply (submission_response_is_decided Sample.title "/srv" Sample.cfg
           [(1, VUndef); (0, VStr "EACCES")] VUndef
           Sample.submission (Sample.signed_in Sample.jane));
    reflexivity.
Defined.

(** Jane's application while the second move is still under way. *)
Lemma pending_move_withholds_response_witness :
  responses
    (trace_of
       (post_apply Sample.title "/srv" Sample.cfg [(0, VUndef)] VUndef
          Sample.submission (Sample.signed_in Sample.jane))) = []
  /\ filter is_slack
       (trace_of
          (post_apply Sample.title "/srv" Sample.cfg [(0, VUndef)] VUndef
             Sample.submission (Sample.signed_in Sample.jane))) = [].
Proof.
  apply (pending_move_withholds_response Sample.title "/srv" Sample.cfg
           [(0, VUndef)] VUndef
           Sample.submission (Sample.signed_in Sample.jane)).
  - reflexivity.
  - reflexivity.
  - simpl. lia.
Defined.

(** Jane asks for the form. *)
Lemma get_apply_prefills_witness :
  exists strings',
    get_apply Sample.plain_get (Sample.signed_in Sample.jane) =
    ([Render "apply"
        (VObj (Lodash.assign (Lodash.assign [] (prop strings' "apply"))
                 (session_user (Sample.signed_in Sample.jane)
                    Sample.plain_get)))],
     {| session := session (Sample.signed_in Sample.jane);
        strings := strings' |},
     Ok tt)
    /\ Dotty.get strings' ["apply"; "form"; "fullName"; "value"] =
       prop (session_user (Sample.signed_in Sample.jane) Sample.plain_get)
         "displayName"
    /\ Dotty.get strings' ["apply"; "form"; "email"; "value"] =
       VStr "jane@x.com".
Proof.
  apply (get_apply_prefills Sample.plain_get (Sample.signed_in Sample.jane)
           (VStr "jane@x.com"));
    reflexivity.
Defined.

Lemma open_limiter_is_bystander : bystander Sample.open_limiter.
Proof. intros req st. reflexivity. Defined.


(** Alice is still signed in after all of it, as Jane Doe. *)
Lemma signed_in_stays_signed_in_witness :
  truthy
    (or_undef
       (lookup "user"
          (session_of "alice"
             (sessions
                (run Sample.title "/srv" Sample.open_limiter
                   RedirectToSignin Scenario.cfg Scenario.calls
                   Scenario.server))))) = true
  /\ (lookup "user"
        (session_of "alice"
           (sessions
              (run Sample.title "/srv" Sample.open_limiter
                 RedirectToSignin Scenario.cfg Scenario.calls
                 Scenario.server))) =
      lookup "user" (session_of "alice" (sessions Scenario.server))
      \/ exists req user,
           In ("alice", PostSignin, req) Scenario.calls
           /\ lookup "user" (body req) = Some user
           /\ strict_eq_string (prop user "kind") "plus#person" = true
           /\ lookup "user"
                (session_of "alice"
                   (sessions
                      (run Sample.title "/srv" Sample.open_limiter
                         RedirectToSignin Scenario.cfg Scenario.calls
                         Scenario.server))) =
              Some user).
Proof.
  apply (signed_in_stays_signed_in Sample.title "/srv" Sample.open_limiter
           RedirectToSignin Scenario.cfg Scenario.calls Scenario.server
           "alice").
  - exact open_limiter_is_bystander.
  - reflexivity.
Defined.
